(** * Dynamic Form System: the request-path core

    A shallow embedding of the two parts of the backend that carry logic:

    - [app/services/api/validators.py]: [validate_form_data], the
      schema-driven validation of a submitted payload;
    - [app/services/cache/cache.py] and the [cache_middleware] of
      [app/services/api/gateway.py]: the read-through HTTP cache with
      pattern invalidation after writes.

    Conventions.  Python [str] objects are [string]s whose characters are the
    code points 0..255.  A Python call that can raise returns a [result];
    [Raise] stands for any exception.  Python dictionaries whose iteration
    order is observed (schemas, payloads, JSON objects) are association lists
    in insertion order; the Redis keyspace is a finite map. *)

From Stdlib Require Import ZArith Ascii String List Bool Lia DecimalString.
From stdpp Require Import gmap strings list fin_maps.

Import ListNotations.
Local Open Scope string_scope.
Local Open Scope Z_scope.

(** ** Results of calls that may raise *)

Inductive result (A : Type) : Type :=
  | Ok (a : A)
  | Raise.
Arguments Ok {A} a.
Arguments Raise {A}.

(** ** Python string primitives *)

Module PyStr.

Definition code (c : ascii) : N := N_of_ascii c.

(** [str.isspace] on one character of the Latin-1 range: the ASCII
    controls TAB..CR and FS..US, the space, NEL and the no-break space. *)
Definition isspace (c : ascii) : bool :=
  let n := code c in
  (((9 <=? n) && (n <=? 13)) || ((28 <=? n) && (n <=? 32))
   || (n =? 133) || (n =? 160))%N.

(** [\d] of the [re] module on the Latin-1 range, also [str.isdigit]. *)
Definition isdigit (c : ascii) : bool :=
  let n := code c in ((48 <=? n) && (n <=? 57))%N.

Definition digit_val (c : ascii) : Z := Z.of_N (code c) - 48.

Fixpoint lstrip (s : string) : string :=
  match s with
  | String c s' => if isspace c then lstrip s' else s
  | EmptyString => EmptyString
  end.

(** [rstrip] drops a character when it is white and everything after it
    has been dropped. *)
Fixpoint rstrip (s : string) : string :=
  match s with
  | String c s' =>
      match rstrip s' with
      | EmptyString => if isspace c then EmptyString else String c EmptyString
      | r => String c r
      end
  | EmptyString => EmptyString
  end.

(** [s.strip()] *)
Definition strip (s : string) : string := rstrip (lstrip s).

(** [len(s)] *)
Definition len (s : string) : Z := Z.of_nat (String.length s).

(** [c in s] for a one-character [c]. *)
Fixpoint contains_char (c : ascii) (s : string) : bool :=
  match s with
  | String d s' => if Ascii.eqb c d then true else contains_char c s'
  | EmptyString => false
  end.

(** [s.split(c)[-1]]: what follows the last occurrence of [c], the whole
    string when [c] does not occur. *)
Fixpoint after_last (c : ascii) (s : string) : string :=
  match s with
  | String d s' =>
      if contains_char c s then
        (if contains_char c s' then after_last c s' else s')
      else s
  | EmptyString => EmptyString
  end.

(** [sub in s] for strings. *)
Fixpoint contains (sub s : string) : bool :=
  if String.prefix sub s then true
  else match s with
       | String _ s' => contains sub s'
       | EmptyString => false
       end.

(** [sep.join(parts)] *)
Fixpoint join (sep : string) (parts : list string) : string :=
  match parts with
  | [] => EmptyString
  | [p] => p
  | p :: rest => p ++ sep ++ join sep rest
  end.

(** [str(n)] for an [int]. *)
Definition of_Z (z : Z) : string := NilZero.string_of_int (Z.to_int z).

End PyStr.

(** ** JSON documents as Python objects

    What [json.loads] builds and what the validator and the cache receive:
    [None], [bool], [int], [float], [str], [list] and [dict].  Floats are
    the interpreter's; their type [F] is a parameter. *)

#[warnings="-register-all"]
Inductive value (F : Type) : Type :=
  | VNone
  | VBool (b : bool)
  | VInt (z : Z)
  | VFloat (f : F)
  | VStr (s : string)
  | VList (l : list (value F))
  | VDict (d : list (string * value F)).
Arguments VNone {F}.
Arguments VBool {F} b.
Arguments VInt {F} z.
Arguments VFloat {F} f.
Arguments VStr {F} s.
Arguments VList {F} l.
Arguments VDict {F} d.

(** The operations of Python's [float] that the validator reaches. *)
Class PyFloat (F : Type) : Type := {
  (** [float(s)] for a [str]; [None] is [ValueError] *)
  float_of_str : string -> option F;
  (** [str(f)] *)
  float_str : F -> string;
  (** [bool(f)] *)
  float_nonzero : F -> bool;
  (** [f < g] *)
  float_lt : F -> F -> bool;
  (** [f < n] and [n < f] for an [int] [n] *)
  float_lt_int : F -> Z -> bool;
  int_lt_float : Z -> F -> bool;
  (** [float("inf")] and [float("-inf")] *)
  float_inf : F;
  float_neg_inf : F
}.

Section Objects.

Context {F : Type} `{!PyFloat F}.

Local Abbreviation value := (value F).
Local Abbreviation dict := (list (string * value)).

(** [d.get(key)], [None] of the option when the key is absent. *)
Fixpoint dict_find (key : string) (d : dict) : option value :=
  match d with
  | [] => None
  | (k, v) :: d' => if String.eqb k key then Some v else dict_find key d'
  end.

(** [d.get(key, default)] *)
Definition dict_get (d : dict) (key : string) (default : value) : value :=
  match dict_find key d with
  | Some v => v
  | None => default
  end.

(** [bool(v)], the test of [if v:] and [not v]. *)
Definition truthy (v : value) : bool :=
  match v with
  | VNone => false
  | VBool b => b
  | VInt z => negb (z =? 0)
  | VFloat f => float_nonzero f
  | VStr s => negb (String.eqb s "")
  | VList l => match l with [] => false | _ => true end
  | VDict d => match d with [] => false | _ => true end
  end.

(** [v is None] *)
Definition is_none (v : value) : bool :=
  match v with VNone => true | _ => false end.

(** [v == s] for a string literal [s]: only a [str] equals a [str]. *)
Definition eq_str (v : value) (s : string) : bool :=
  match v with VStr t => String.eqb t s | _ => false end.

(** *** [repr] and [str] *)

Definition hex_digit (n : N) : ascii :=
  ascii_of_N (if (n <? 10)%N then 48 + n else 87 + n)%N.

Definition hex_escape (c : ascii) : string :=
  let n := PyStr.code c in
  String "\" (String "x" (String (hex_digit (n / 16)) (String (hex_digit (n mod 16)) ""))).

(** One character of [repr(s)] with the quote [q] chosen for the string. *)
Definition repr_char (q c : ascii) : string :=
  let n := PyStr.code c in
  if Ascii.eqb c q || Ascii.eqb c "\" then String "\" (String c "")
  else if (n =? 9)%N then "\t"
  else if (n =? 10)%N then "\n"
  else if (n =? 13)%N then "\r"
  else if (n <? 32)%N || (n =? 127)%N then hex_escape c
  else if (n <? 127)%N then String c ""
  else if (n <=? 160)%N || (n =? 173)%N then hex_escape c
  else String c "".

Fixpoint repr_chars (q : ascii) (s : string) : string :=
  match s with
  | String c s' => repr_char q c ++ repr_chars q s'
  | EmptyString => EmptyString
  end.

(** [repr(s)] for a [str]: single quotes, unless the string has a single
    quote and no double quote. *)
Definition repr_str (s : string) : string :=
  let q := if PyStr.contains_char "'" s && negb (PyStr.contains_char "034" s)
           then "034"%char else "'"%char in
  String q (repr_chars q s ++ String q "").

Fixpoint py_repr (v : value) : string :=
  match v with
  | VNone => "None"
  | VBool true => "True"
  | VBool false => "False"
  | VInt z => PyStr.of_Z z
  | VFloat f => float_str f
  | VStr s => repr_str s
  | VList l => "[" ++ PyStr.join ", " (map py_repr l) ++ "]"
  | VDict d =>
      "{" ++ PyStr.join ", "
               (map (fun kv => let '(k, x) := kv in repr_str k ++ ": " ++ py_repr x) d)
          ++ "}"
  end.

(** [str(v)] *)
Definition py_str (v : value) : string :=
  match v with
  | VStr s => s
  | _ => py_repr v
  end.

End Objects.

(** ** [datetime.strptime(s, "%Y-%m-%d")]

    The format compiles to the regular expression
    [(?P<Y>\d\d\d\d)-(?P<m>1[0-2]|0[1-9]|[1-9])-(?P<d>3[0-1]|[1-2]\d|0[1-9]|[1-9]| [1-9])],
    matched at the start of the string; the alternatives are tried in order
    and the whole string must be consumed.  The three numbers must then be a
    date of the proleptic Gregorian calendar with a year in 1..9999. *)

Module Strptime.

Import PyStr.

(** The ways the directive [%m] can match a prefix of [s], in the order the
    regular expression tries them: the month and what follows it. *)
Definition match_m (s : string) : list (Z * string) :=
  match s with
  | String a s1 =>
      (match s1 with
       | String b s2 =>
           (if Ascii.eqb a "1" && (Ascii.eqb b "0" || Ascii.eqb b "1" || Ascii.eqb b "2")
            then [(10 + digit_val b, s2)] else [])
           ++ (if Ascii.eqb a "0" && isdigit b && negb (Ascii.eqb b "0")
               then [(digit_val b, s2)] else [])
       | EmptyString => []
       end)
      ++ (if isdigit a && negb (Ascii.eqb a "0") then [(digit_val a, s1)] else [])
  | EmptyString => []
  end.

(** The same for [%d]. *)
Definition match_d (s : string) : list (Z * string) :=
  match s with
  | String a s1 =>
      (match s1 with
       | String b s2 =>
           (if Ascii.eqb a "3" && (Ascii.eqb b "0" || Ascii.eqb b "1")
            then [(30 + digit_val b, s2)] else [])
           ++ (if (Ascii.eqb a "1" || Ascii.eqb a "2") && isdigit b
               then [(10 * digit_val a + digit_val b, s2)] else [])
           ++ (if Ascii.eqb a "0" && isdigit b && negb (Ascii.eqb b "0")
               then [(digit_val b, s2)] else [])
       | EmptyString => []
       end)
      ++ (if isdigit a && negb (Ascii.eqb a "0") then [(digit_val a, s1)] else [])
      ++ (match s1 with
          | String b s2 =>
              if Ascii.eqb a " " && isdigit b && negb (Ascii.eqb b "0")
              then [(digit_val b, s2)] else []
          | EmptyString => []
          end)
  | EmptyString => []
  end.

(** The first way to match ["-%d"] after a month; the regular expression
    has nothing after [%d], so the first alternative that matches is taken. *)
Definition match_dash_d (s : string) : option (Z * string) :=
  match s with
  | String c s' => if Ascii.eqb c "-" then head (match_d s') else None
  | EmptyString => None
  end.

(** Backtracking over the alternatives of [%m]. *)
Fixpoint first_md (ms : list (Z * string)) : option (Z * Z * string) :=
  match ms with
  | [] => None
  | (m, s) :: ms' =>
      match match_dash_d s with
      | Some (d, rest) => Some (m, d, rest)
      | None => first_md ms'
      end
  end.

(** The match of the whole expression: year, month, day and the text left. *)
Definition regex_match (s : string) : option (Z * Z * Z * string) :=
  match s with
  | String y1 (String y2 (String y3 (String y4 (String dash s')))) =>
      if isdigit y1 && isdigit y2 && isdigit y3 && isdigit y4 && Ascii.eqb dash "-"
      then match first_md (match_m s') with
           | Some (m, d, rest) =>
               Some (1000 * digit_val y1 + 100 * digit_val y2
                     + 10 * digit_val y3 + digit_val y4, m, d, rest)
           | None => None
           end
      else None
  | _ => None
  end.

Definition is_leap (y : Z) : bool :=
  (y mod 4 =? 0) && (negb (y mod 100 =? 0) || (y mod 400 =? 0)).

Definition days_in_month (y m : Z) : Z :=
  if m =? 2 then (if is_leap y then 29 else 28)
  else if (m =? 4) || (m =? 6) || (m =? 9) || (m =? 11) then 30
  else 31.

(** [datetime.date(y, m, d)] does not raise. *)
Definition valid_date (y m d : Z) : bool :=
  (1 <=? y) && (y <=? 9999) && (1 <=? m) && (m <=? 12)
  && (1 <=? d) && (d <=? days_in_month y m).

(** [datetime.strptime(s, "%Y-%m-%d")]; [None] is [ValueError]. *)
Definition strptime_Ymd (s : string) : option (Z * Z * Z) :=
  match regex_match s with
  | Some (y, m, d, rest) =>
      if String.eqb rest "" && valid_date y m d then Some (y, m, d) else None
  | None => None
  end.

End Strptime.

(** ** [validators.py]: [validate_form_data] *)

Section Validators.

Context {F : Type} `{!PyFloat F}.

Local Abbreviation value := (value F).
Local Abbreviation dict := (list (string * value)).

(** [n < v] and [n > v] for an [int] [n] (a length) and a configured bound
    [v]: defined against [int], [bool] and [float], [TypeError] otherwise. *)
Definition int_lt_value (n : Z) (v : value) : result bool :=
  match v with
  | VInt z => Ok (n <? z)
  | VBool b => Ok (n <? Z.b2z b)
  | VFloat g => Ok (int_lt_float n g)
  | _ => Raise
  end.

Definition int_gt_value (n : Z) (v : value) : result bool :=
  match v with
  | VInt z => Ok (z <? n)
  | VBool b => Ok (Z.b2z b <? n)
  | VFloat g => Ok (float_lt_int g n)
  | _ => Raise
  end.

(** [f < v] and [f > v] for a [float] [f]. *)
Definition float_lt_value (f : F) (v : value) : result bool :=
  match v with
  | VInt z => Ok (float_lt_int f z)
  | VBool b => Ok (float_lt_int f (Z.b2z b))
  | VFloat g => Ok (float_lt f g)
  | _ => Raise
  end.

Definition float_gt_value (f : F) (v : value) : result bool :=
  match v with
  | VInt z => Ok (int_lt_float z f)
  | VBool b => Ok (int_lt_float (Z.b2z b) f)
  | VFloat g => Ok (float_lt g f)
  | _ => Raise
  end.

Fixpoint chars (s : string) : list string :=
  match s with
  | String c s' => String c "" :: chars s'
  | EmptyString => []
  end.

(** [s in options]: membership in a list, a key of a dict, a substring of
    a string; [TypeError] for what is not a container. *)
Definition str_in (s : string) (options : value) : result bool :=
  match options with
  | VList l => Ok (existsb (fun x => eq_str x s) l)
  | VDict d => Ok (existsb (fun kv => String.eqb (fst kv) s) d)
  | VStr t => Ok (PyStr.contains s t)
  | _ => Raise
  end.

(** [map(str, options)] for the containers [str_in] accepts. *)
Definition map_str (options : value) : list string :=
  match options with
  | VList l => map py_str l
  | VDict d => map fst d
  | VStr t => chars t
  | _ => []
  end.

(** The checks of one field once its value is known to be present: the
    [if]/[elif] chain on [field_type].  The result is what the iteration
    appends to [errors]. *)
Definition check_type (field_name : string) (field_config : dict)
    (field_type : value) (value_str : string) : result (list string) :=
  if eq_str field_type "string" || eq_str field_type "text" then
    let min_len := dict_get field_config "minLength" (VInt 0) in
    let max_len := dict_get field_config "maxLength" (VFloat float_inf) in
    match int_lt_value (PyStr.len value_str) min_len with
    | Raise => Raise
    | Ok too_short =>
        let e1 := if too_short
                  then [field_name ++ " must be at least " ++ py_str min_len ++ " characters"]
                  else [] in
        match int_gt_value (PyStr.len value_str) max_len with
        | Raise => Raise
        | Ok too_long =>
            let e2 := if too_long
                      then [field_name ++ " must be no more than " ++ py_str max_len
                                       ++ " characters"]
                      else [] in
            Ok (e1 ++ e2)%list
        end
    end
  else if eq_str field_type "email" then
    if negb (PyStr.contains_char "@" value_str)
       || negb (PyStr.contains_char "." (PyStr.after_last "@" value_str))
    then Ok [field_name ++ " must be a valid email address"]
    else Ok []
  else if eq_str field_type "password" then
    let min_len := dict_get field_config "minLength" (VInt 6) in
    match int_lt_value (PyStr.len value_str) min_len with
    | Raise => Raise
    | Ok too_short =>
        Ok (if too_short
            then [field_name ++ " must be at least " ++ py_str min_len ++ " characters"]
            else [])
    end
  else if eq_str field_type "date" then
    match Strptime.strptime_Ymd value_str with
    | Some _ => Ok []
    | None => Ok [field_name ++ " must be in YYYY-MM-DD format"]
    end
  else if eq_str field_type "number" then
    match float_of_str value_str with
    | None => Ok [field_name ++ " must be a number"]
    | Some num =>
        let min_val := dict_get field_config "min" (VFloat float_neg_inf) in
        let max_val := dict_get field_config "max" (VFloat float_inf) in
        match float_lt_value num min_val with
        | Raise => Ok [field_name ++ " must be a number"]
        | Ok below =>
            let e1 := if below
                      then [field_name ++ " must be at least " ++ py_str min_val]
                      else [] in
            match float_gt_value num max_val with
            | Raise => Ok (e1 ++ [(field_name ++ " must be a number")%string])%list
            | Ok above =>
                let e2 := if above
                          then [field_name ++ " must be at most " ++ py_str max_val]
                          else [] in
                Ok (e1 ++ e2)%list
            end
        end
    end
  else if eq_str field_type "dropdown" then
    let options := dict_get field_config "options" (VList []) in
    match str_in value_str options with
    | Raise => Raise
    | Ok true => Ok []
    | Ok false =>
        Ok [field_name ++ " must be one of: " ++ PyStr.join ", " (map_str options)]
    end
  else Ok [].

(** One iteration of the loop over [schema.items()]: what it appends to
    [errors], or the exception it raises.  [field_config.get] raises on
    what is not a dict. *)
Definition validate_field (data : dict) (field_name : string)
    (field_config : value) : result (list string) :=
  match field_config with
  | VDict cfg =>
      let value := dict_get data field_name VNone in
      let field_type := dict_get cfg "type" VNone in
      let required := dict_get cfg "required" (VBool false) in
      if truthy required && (is_none value || eq_str value "") then
        Ok [field_name ++ " is required"]
      else if negb (truthy value) then
        Ok []
      else
        let value_str := PyStr.strip (py_str value) in
        check_type field_name cfg field_type value_str
  | _ => Raise
  end.

(** The loop, with [errors] as accumulator. *)
Fixpoint validate_fields (data schema : dict) (errors : list string)
    : result (list string) :=
  match schema with
  | [] => Ok errors
  | (field_name, field_config) :: rest =>
      match validate_field data field_name field_config with
      | Ok errs => validate_fields data rest (errors ++ errs)%list
      | Raise => Raise
      end
  end.

(** [validate_form_data(data, schema)] returns [(len(errors) == 0, errors)]. *)
Definition validate_form_data (data schema : dict) : result (bool * list string) :=
  match validate_fields data schema [] with
  | Ok errors => Ok (Nat.eqb (length errors) 0, errors)
  | Raise => Raise
  end.

End Validators.

(** ** An interpreter for the examples

    The theorems below hold for every [PyFloat].  The closed examples need
    one: the floats that are whole numbers, with the two infinities.  It
    reads the numerals written as an optionally signed run of digits, which
    is all the examples contain. *)

Module WholeFloat.

Inductive t : Type :=
  | NegInf
  | Num (z : Z)
  | PosInf.

Fixpoint digits_value (acc : Z) (s : string) : option Z :=
  match s with
  | String c s' =>
      if PyStr.isdigit c then digits_value (10 * acc + PyStr.digit_val c) s' else None
  | EmptyString => Some acc
  end.

Definition unsigned (s : string) : option Z :=
  match s with
  | EmptyString => None
  | _ => digits_value 0 s
  end.

Definition of_str (s : string) : option t :=
  match PyStr.strip s with
  | String "-" s' => option_map (fun z => Num (- z)) (unsigned s')
  | String "+" s' => option_map Num (unsigned s')
  | s' => option_map Num (unsigned s')
  end.

Definition to_str (f : t) : string :=
  match f with
  | NegInf => "-inf"
  | Num z => PyStr.of_Z z ++ ".0"
  | PosInf => "inf"
  end.

Definition ltb (f g : t) : bool :=
  match f, g with
  | NegInf, NegInf => false
  | NegInf, _ => true
  | Num _, NegInf => false
  | Num a, Num b => a <? b
  | Num _, PosInf => true
  | PosInf, _ => false
  end.

#[global] Instance py_float : PyFloat t := {
  float_of_str := of_str;
  float_str := to_str;
  float_nonzero f := match f with Num 0 => false | _ => true end;
  float_lt := ltb;
  float_lt_int f n := ltb f (Num n);
  int_lt_float n f := ltb (Num n) f;
  float_inf := PosInf;
  float_neg_inf := NegInf
}.

End WholeFloat.

Abbreviation doc := (value WholeFloat.t).


(** ** The Redis server behind [cache.py]

    A keyspace of string payloads with an expiry time each, and a
    connection that is up or down: while it is down every command raises
    [ConnectionError].  Time is the server's clock, passed to the commands
    that read it. *)

Module Redis.

Record entry : Type := { payload : string; expires_at : Z }.

Record client : Type := { db : gmap string entry; connected : bool }.

Definition live (now : Z) (e : entry) : bool := now <? expires_at e.

(** *** Key patterns of [SCAN ... MATCH] (the server's [stringmatchlen]) *)

Fixpoint drop_stars (p : string) : string :=
  match p with
  | String "*" p' => drop_stars p'
  | _ => p
  end.

(** The inside of a bracket expression, after ["["] and ["^"]: whether the
    character [c] is in the class so far ([m]) and the pattern after the
    closing bracket. *)
Fixpoint class_loop (p : string) (c : ascii) (m : bool) : bool * string :=
  match p with
  | EmptyString => (m, EmptyString)
  | String a p1 =>
      match p1 with
      | String b p2 =>
          if Ascii.eqb a "\" then class_loop p2 c (m || Ascii.eqb b c)
          else if Ascii.eqb a "]" then (m, p1)
          else
            match p2 with
            | String e p3 =>
                if Ascii.eqb b "-" then
                  let lo := N.min (PyStr.code a) (PyStr.code e) in
                  let hi := N.max (PyStr.code a) (PyStr.code e) in
                  class_loop p3 c (m || ((lo <=? PyStr.code c) && (PyStr.code c <=? hi))%N)
                else class_loop p1 c (m || Ascii.eqb a c)
            | EmptyString => class_loop p1 c (m || Ascii.eqb a c)
            end
      | EmptyString =>
          if Ascii.eqb a "]" then (m, p1) else (m || Ascii.eqb a c, EmptyString)
      end
  end.

Definition is_empty (s : string) : bool :=
  match s with EmptyString => true | _ => false end.

(** The matching loop.  Each round consumes at least one character of the
    pattern, which bounds the rounds by [fuel]. *)
Fixpoint glob (fuel : nat) (p s : string) : bool :=
  match fuel with
  | O => false
  | S fuel' =>
      match p, s with
      | String pc p', String sc s' =>
          let next (p1 s1 : string) : bool :=
            if is_empty s1 then is_empty (drop_stars p1) else glob fuel' p1 s1 in
          if Ascii.eqb pc "*" then
            let p1 := drop_stars p' in
            if is_empty p1 then true
            else (fix try (t : string) : bool :=
                    match t with
                    | EmptyString => false
                    | String _ t' => glob fuel' p1 t || try t'
                    end) s
          else if Ascii.eqb pc "?" then next p' s'
          else if Ascii.eqb pc "[" then
            let '(negated, body) :=
              match p' with
              | String n p2 => if Ascii.eqb n "^" then (true, p2) else (false, p')
              | EmptyString => (false, p')
              end in
            let '(m, rest) := class_loop body sc false in
            if xorb negated m then next rest s' else false
          else if Ascii.eqb pc "\" then
            match p' with
            | String qc p2 => if Ascii.eqb qc sc then next p2 s' else false
            | EmptyString => if Ascii.eqb pc sc then next p' s' else false
            end
          else if Ascii.eqb pc sc then next p' s' else false
      | _, _ => is_empty p && is_empty s
      end
  end.

Definition glob_match (pattern key : string) : bool :=
  glob (S (String.length pattern)) pattern key.

(** [SCAN] filters the keys with the matcher, except that it does not
    filter at all when the pattern is ["*"]. *)
Definition key_matches (pattern key : string) : bool :=
  String.eqb pattern "*" || glob_match pattern key.

(** *** Commands *)

(** [GET key] *)
Definition get (now : Z) (r : client) (key : string) : result (option string) :=
  if connected r then
    match db r !! key with
    | Some e => Ok (if live now e then Some (payload e) else None)
    | None => Ok None
    end
  else Raise.

(** [SETEX key ttl value]; the server refuses a [ttl] that is not positive. *)
Definition setex (now : Z) (r : client) (key : string) (ttl : Z) (v : string)
    : result client :=
  if connected r && (0 <? ttl) then
    Ok {| db := <[key := {| payload := v; expires_at := now + ttl |}]> (db r);
          connected := connected r |}
  else Raise.

(** [DEL key] *)
Definition delete (r : client) (key : string) : result client :=
  if connected r then Ok {| db := base.delete key (db r); connected := connected r |}
  else Raise.

(** The keys [scan_iter(match=pattern)] yields: the live keys that match. *)
Definition scan_iter (now : Z) (r : client) (pattern : string) : result (list string) :=
  if connected r then
    Ok (filter (fun kv => key_matches pattern kv.1 && live now kv.2 = true)
               (map_to_list (db r))).*1
  else Raise.

(** [FLUSHDB] *)
Definition flushdb (r : client) : result client :=
  if connected r then Ok {| db := ∅; connected := connected r |} else Raise.

End Redis.

(** ** The [json] module and the response renderer

    The codec is the standard library's and the web framework's; it is a
    parameter.  [None] stands for a raised exception. *)

Class JsonCodec (F : Type) : Type := {
  (** [json.loads(s)] for a [str] *)
  json_loads : string -> option (value F);
  (** [json.loads(b)] for [bytes], which are decoded first *)
  json_loads_bytes : string -> option (value F);
  (** [json.dumps(v)] *)
  json_dumps : value F -> option string;
  (** [JSONResponse.render(v)]: compact separators, no NaN or infinity *)
  json_render : value F -> option string
}.

(** ** [cache.py]

    The module holds one global, [r]: a client, or [None] when the server
    did not answer at start-up.  Every function returns a [result] so that
    "does not raise" can be stated; a function that writes also returns the
    client after the call. *)

Section Cache.

Context {F : Type} `{!JsonCodec F}.

Local Abbreviation value := (value F).

(** [cache_get(key)] *)
Definition cache_get (now : Z) (r : option Redis.client) (key : string)
    : result value :=
  match r with
  | None => Ok VNone
  | Some c =>
      match Redis.get now c key with
      | Ok (Some data) =>
          if negb (String.eqb data "") then
            match json_loads data with
            | Some v => Ok v
            | None => Ok VNone
            end
          else Ok VNone
      | Ok None => Ok VNone
      | Raise => Ok VNone
      end
  end.

(** [cache_set(key, value, ttl)] *)
Definition cache_set (now : Z) (r : option Redis.client) (key : string)
    (v : value) (ttl : Z) : result (option Redis.client) :=
  match r with
  | None => Ok r
  | Some c =>
      match json_dumps v with
      | Some s =>
          match Redis.setex now c key ttl s with
          | Ok c' => Ok (Some c')
          | Raise => Ok r
          end
      | None => Ok r
      end
  end.

(** [cache_delete(key)] *)
Definition cache_delete (r : option Redis.client) (key : string)
    : result (option Redis.client) :=
  match r with
  | None => Ok r
  | Some c =>
      match Redis.delete c key with
      | Ok c' => Ok (Some c')
      | Raise => Ok r
      end
  end.

(** The loop of [cache_delete_pattern] over the scanned keys: the count, or
    the exception of a [delete], and the client as the loop leaves it. *)
Fixpoint delete_keys (keys : list string) (c : Redis.client) (count : Z)
    : result Z * Redis.client :=
  match keys with
  | [] => (Ok count, c)
  | key :: keys' =>
      match Redis.delete c key with
      | Ok c' => delete_keys keys' c' (count + 1)
      | Raise => (Raise, c)
      end
  end.

(** [cache_delete_pattern(pattern)]: the count and the client afterwards. *)
Definition cache_delete_pattern (now : Z) (r : option Redis.client)
    (pattern : string) : result (Z * option Redis.client) :=
  match r with
  | None => Ok (0, r)
  | Some c =>
      match Redis.scan_iter now c pattern with
      | Ok keys =>
          match delete_keys keys c 0 with
          | (Ok count, c') => Ok (count, Some c')
          | (Raise, c') => Ok (0, Some c')
          end
      | Raise => Ok (0, r)
      end
  end.

(** [cache_clear()] *)
Definition cache_clear (r : option Redis.client) : result (option Redis.client) :=
  match r with
  | None => Ok r
  | Some c =>
      match Redis.flushdb c with
      | Ok c' => Ok (Some c')
      | Raise => Ok r
      end
  end.

End Cache.

(** ** [gateway.py]: [cache_middleware] *)

Record request : Type := {
  method : string;
  path : string;      (* [request.url.path] *)
  query : string      (* [request.url.query], empty when there is none *)
}.

(** A response as the middleware sees it: the status code and the chunks
    its [body_iterator] has yet to yield.  The iterator is consumed by
    reading it. *)
Record response : Type := {
  status_code : Z;
  body_iterator : list string
}.

(** What happens during a request, in order: the calls of the downstream
    handler and the lines the middleware prints. *)
Inductive event : Type :=
  | CallNext (req : request)
  | CacheHit (p : string)
  | CacheMiss (p : string)
  | Cached (p : string)
  | CacheError
  | Invalidated (deleted : Z) (family : string) (meth : string)
  | InvalidationError.

Section Gateway.

Context {F : Type} `{!PyFloat F} `{!JsonCodec F}.

(** The application behind the middleware: its state [W] (the database) and
    [call_next], which may raise. *)
Context {W : Type} (call_next : request -> W -> result response * W).

Local Abbreviation value := (value F).

Record machine : Type := {
  r : option Redis.client;      (* the global of [cache.py] *)
  now : Z;                      (* the clock of the Redis server *)
  world : W;
  trace : list event
}.

(** Computations on the machine that may raise. *)
Definition M (A : Type) : Type := machine -> result A * machine.

Definition ret {A : Type} (a : A) : M A := fun m => (Ok a, m).

Definition bind {A B : Type} (c : M A) (k : A -> M B) : M B :=
  fun m =>
    match c m with
    | (Ok a, m') => k a m'
    | (Raise, m') => (Raise, m')
    end.

Definition raise {A : Type} : M A := fun m => (Raise, m).

(** [try: body  except Exception: handler] *)
Definition try_except {A : Type} (body handler : M A) : M A :=
  fun m =>
    match body m with
    | (Ok a, m') => (Ok a, m')
    | (Raise, m') => handler m'
    end.

Notation "x <- c ;; k" := (bind c (fun x => k))
  (at level 100, c at next level, right associativity).
Notation "c ;;; k" := (bind c (fun _ => k))
  (at level 100, right associativity).

Definition print (e : event) : M unit :=
  fun m => (Ok tt, {| r := r m; now := now m; world := world m;
                      trace := trace m ++ [e] |}).

(** [await call_next(request)] *)
Definition await_call_next (req : request) : M response :=
  fun m =>
    let '(res, w') := call_next req (world m) in
    (res, {| r := r m; now := now m; world := w';
             trace := trace m ++ [CallNext req] |}).

Definition set_r (r' : option Redis.client) : M unit :=
  fun m => (Ok tt, {| r := r'; now := now m; world := world m; trace := trace m |}).

Definition of_result {A : Type} (x : result A) : M A := fun m => (x, m).

Definition of_option {A : Type} (x : option A) : M A :=
  fun m => (match x with Some a => Ok a | None => Raise end, m).

(** The functions of [cache.py] on the machine. *)
Definition do_cache_get (key : string) : M value :=
  fun m => (cache_get (now m) (r m) key, m).

Definition do_cache_set (key : string) (v : value) (ttl : Z) : M unit :=
  fun m =>
    match cache_set (now m) (r m) key v ttl with
    | Ok r' => set_r r' m
    | Raise => (Raise, m)
    end.

Definition do_cache_delete_pattern (pattern : string) : M Z :=
  fun m =>
    match cache_delete_pattern (now m) (r m) pattern with
    | Ok (count, r') => (count <- ret count ;; set_r r' ;;; ret count) m
    | Raise => (Raise, m)
    end.

(** [f"{method}:{path}"], then [f"?{query}"] when there is a query. *)
Definition cache_key_of (req : request) : string :=
  let cache_key := method req ++ ":" ++ path req in
  if negb (String.eqb (query req) "") then cache_key ++ "?" ++ query req
  else cache_key.

(** [JSONResponse(content=v)] *)
Definition JSONResponse (v : value) : M response :=
  body <- of_option (json_render v) ;;
  ret {| status_code := 200; body_iterator := [body] |}.

(** [StreamingResponse(stream(), status_code=...)] with [stream] yielding
    [body] once. *)
Definition StreamingResponse (body : string) (status : Z) : response :=
  {| status_code := status; body_iterator := [body] |}.

Definition is_api (req : request) : bool := String.prefix "/api/" (path req).

Definition is_get (req : request) : bool := String.eqb (method req) "GET".

Definition is_mutation (req : request) : bool :=
  String.eqb (method req) "POST" || String.eqb (method req) "PUT"
  || String.eqb (method req) "DELETE".

(** The first block: a cached response, or nothing. *)
Definition read_cache (req : request) : M (option response) :=
  if is_get req && is_api req then
    cached_data <- do_cache_get (cache_key_of req) ;;
    if truthy cached_data then
      print (CacheHit (path req)) ;;;
      resp <- JSONResponse cached_data ;;
      ret (Some resp)
    else
      print (CacheMiss (path req)) ;;; ret None
  else ret None.

(** The block that caches a successful GET.  Reading the body drains the
    iterator of [resp]; the [except] branch returns that same object. *)
Definition store_response (req : request) (resp : response) : M response :=
  let body := String.concat "" (body_iterator resp) in
  let drained := {| status_code := status_code resp; body_iterator := [] |} in
  try_except
    (data <- of_option (json_loads_bytes body) ;;
     do_cache_set (cache_key_of req) data 3600 ;;;
     print (Cached (path req)) ;;;
     ret (StreamingResponse body (status_code resp)))
    (print CacheError ;;; ret drained).

(** The block that invalidates after a write. *)
Definition invalidate (req : request) : M unit :=
  try_except
    (if PyStr.contains "/forms" (path req) || PyStr.contains "/create_form" (path req)
     then
       deleted <- do_cache_delete_pattern "GET:/api/forms*" ;;
       print (Invalidated deleted "/api/forms/*" (method req))
     else if PyStr.contains "/submissions" (path req) then
       deleted <- do_cache_delete_pattern "GET:/api/submissions*" ;;
       print (Invalidated deleted "/api/submissions/*" (method req))
     else ret tt)
    (print InvalidationError).

Definition cache_middleware (req : request) : M response :=
  hit <- read_cache req ;;
  match hit with
  | Some resp => ret resp
  | None =>
      resp <- await_call_next req ;;
      if is_get req && is_api req && (status_code resp =? 200) then
        store_response req resp
      else
        (if is_mutation req && is_api req then invalidate req else ret tt) ;;;
        ret resp
  end.

End Gateway.

(** ** A codec for the examples

    JSON texts over the example interpreter's numbers: the literals,
    integers, floats written as whole numbers, the constants [Infinity] and
    [-Infinity] that [json.loads] reads and [json.dumps] writes, strings,
    arrays and objects.  Texts with other numerals are outside it and are
    refused. *)

Module ExampleJson.

Definition is_ws (c : ascii) : bool :=
  Ascii.eqb c " " || Ascii.eqb c "009" || Ascii.eqb c "010" || Ascii.eqb c "013".

Fixpoint skip_ws (s : string) : string :=
  match s with
  | String c s' => if is_ws c then skip_ws s' else s
  | EmptyString => EmptyString
  end.

(** [d[k] = v] *)
Fixpoint dict_set (k : string) (v : doc) (d : list (string * doc)) : list (string * doc) :=
  match d with
  | [] => [(k, v)]
  | (k', v') :: d' => if String.eqb k' k then (k, v) :: d' else (k', v') :: dict_set k v d'
  end.

Definition hex_val (c : ascii) : option N :=
  let n := PyStr.code c in
  if ((48 <=? n) && (n <=? 57))%N then Some (n - 48)%N
  else if ((97 <=? n) && (n <=? 102))%N then Some (n - 87)%N
  else if ((65 <=? n) && (n <=? 70))%N then Some (n - 55)%N
  else None.

(** The inside of a string literal, after the opening quote. *)
Fixpoint parse_string (s : string) : option (string * string) :=
  match s with
  | String "034" rest => Some (EmptyString, rest)
  | String "\" (String e rest) =>
      let simple (c : ascii) :=
        option_map (fun '(t, r) => (String c t, r)) (parse_string rest) in
      match e with
      | "034"%char => simple "034"%char
      | "\"%char => simple "\"%char
      | "/"%char => simple "/"%char
      | "b"%char => simple "008"%char
      | "f"%char => simple "012"%char
      | "n"%char => simple "010"%char
      | "r"%char => simple "013"%char
      | "t"%char => simple "009"%char
      | "u"%char =>
          match rest with
          | String "0" (String "0" (String h (String l rest'))) =>
              match hex_val h, hex_val l, parse_string rest' with
              | Some a, Some b, Some (t, r) => Some (String (ascii_of_N (16 * a + b)) t, r)
              | _, _, _ => None
              end
          | _ => None
          end
      | _ => None
      end
  | String c rest =>
      if (PyStr.code c <? 32)%N then None
      else option_map (fun '(t, r) => (String c t, r)) (parse_string rest)
  | EmptyString => None
  end.

Fixpoint take_digits (s : string) : string * string :=
  match s with
  | String c s' =>
      if PyStr.isdigit c then let '(d, r) := take_digits s' in (String c d, r)
      else (EmptyString, s)
  | EmptyString => (EmptyString, EmptyString)
  end.

Fixpoint all_zero (s : string) : bool :=
  match s with
  | String c s' => Ascii.eqb c "0" && all_zero s'
  | EmptyString => true
  end.

(** A numeral: an integer, or a float whose fraction is zero. *)
Definition parse_number (s : string) : option (doc * string) :=
  let '(neg, s1) := match s with String "-" s' => (true, s') | _ => (false, s) end in
  let '(ds, rest) := take_digits s1 in
  match ds with
  | EmptyString => None
  | String d ds' =>
      if Ascii.eqb d "0" && negb (String.eqb ds' "") then None
      else
        match WholeFloat.digits_value 0 ds with
        | None => None
        | Some z =>
            let n := if neg then - z else z in
            match rest with
            | String "." rest1 =>
                let '(fs, rest2) := take_digits rest1 in
                match fs, rest2 with
                | EmptyString, _ => None
                | _, String "e" _ | _, String "E" _ => None
                | _, _ => if all_zero fs then Some (VFloat (WholeFloat.Num n), rest2)
                          else None
                end
            | String "e" _ | String "E" _ => None
            | _ => Some (VInt n, rest)
            end
        end
  end.

(** What follows [p] in a text that starts with it. *)
Fixpoint strip_prefix (p s : string) : option string :=
  match p, s with
  | EmptyString, _ => Some s
  | String a p', String b s' => if Ascii.eqb a b then strip_prefix p' s' else None
  | String _ _, EmptyString => None
  end.

(** The constants the scanner tries when no numeral matches. *)
Definition parse_constant (s : string) : option (doc * string) :=
  match strip_prefix "Infinity" s with
  | Some rest => Some (VFloat WholeFloat.PosInf, rest)
  | None =>
      match strip_prefix "-Infinity" s with
      | Some rest => Some (VFloat WholeFloat.NegInf, rest)
      | None => None
      end
  end.

Fixpoint parse_value (fuel : nat) (s : string) : option (doc * string) :=
  match fuel with
  | O => None
  | S n =>
      match skip_ws s with
      | String "n" (String "u" (String "l" (String "l" rest))) => Some (VNone, rest)
      | String "t" (String "r" (String "u" (String "e" rest))) => Some (VBool true, rest)
      | String "f" (String "a" (String "l" (String "s" (String "e" rest)))) =>
          Some (VBool false, rest)
      | String "034" rest => option_map (fun '(t, r) => (VStr t, r)) (parse_string rest)
      | String "[" rest =>
          match skip_ws rest with
          | String "]" rest' => Some (VList [], rest')
          | _ => option_map (fun '(l, r) => (VList l, r)) (parse_elements n rest)
          end
      | String "{" rest =>
          match skip_ws rest with
          | String "}" rest' => Some (VDict [], rest')
          | _ => option_map (fun '(d, r) => (VDict d, r)) (parse_members n rest [])
          end
      | s' =>
          match parse_number s' with
          | Some res => Some res
          | None => parse_constant s'
          end
      end
  end
with parse_elements (fuel : nat) (s : string) : option (list doc * string) :=
  match fuel with
  | O => None
  | S n =>
      match parse_value n s with
      | Some (v, rest) =>
          match skip_ws rest with
          | String "," rest' =>
              option_map (fun '(l, r) => (v :: l, r)) (parse_elements n rest')
          | String "]" rest' => Some ([v], rest')
          | _ => None
          end
      | None => None
      end
  end
with parse_members (fuel : nat) (s : string) (acc : list (string * doc))
    : option (list (string * doc) * string) :=
  match fuel with
  | O => None
  | S n =>
      match skip_ws s with
      | String "034" rest =>
          match parse_string rest with
          | Some (k, rest1) =>
              match skip_ws rest1 with
              | String ":" rest2 =>
                  match parse_value n rest2 with
                  | Some (v, rest3) =>
                      match skip_ws rest3 with
                      | String "," rest4 => parse_members n rest4 (dict_set k v acc)
                      | String "}" rest4 => Some (dict_set k v acc, rest4)
                      | _ => None
                      end
                  | None => None
                  end
              | _ => None
              end
          | None => None
          end
      | _ => None
      end
  end.

(** [json.loads] of a text: one value, then only white space. *)
Definition loads (s : string) : option doc :=
  match parse_value (2 * String.length s + 2) s with
  | Some (v, rest) => if String.eqb (skip_ws rest) "" then Some v else None
  | None => None
  end.

(** [bytes.decode("utf-8")], for the code points below 256. *)
Fixpoint decode_utf8 (b : string) : option string :=
  match b with
  | EmptyString => Some EmptyString
  | String c b' =>
      let n := PyStr.code c in
      if (n <? 128)%N then option_map (String c) (decode_utf8 b')
      else if (n =? 194)%N || (n =? 195)%N then
        match b' with
        | String c2 b2 =>
            let n2 := PyStr.code c2 in
            if ((128 <=? n2) && (n2 <? 192))%N
            then option_map (String (ascii_of_N ((n - 192) * 64 + (n2 - 128))))
                            (decode_utf8 b2)
            else None
        | EmptyString => None
        end
      else None
  end.

Definition loads_bytes (b : string) : option doc :=
  match decode_utf8 b with
  | Some s => loads s
  | None => None
  end.

Definition u_escape (c : ascii) : string := "\u00" ++ substring 2 2 (hex_escape c).

(** One character of a string literal; [ascii_only] is [ensure_ascii] and
    [utf8] says the text is then encoded. *)
Definition dump_char (ascii_only : bool) (c : ascii) : string :=
  let n := PyStr.code c in
  if Ascii.eqb c "034" then String "\" (String "034" "")
  else if Ascii.eqb c "\" then "\\"
  else if (n =? 10)%N then "\n"
  else if (n =? 13)%N then "\r"
  else if (n =? 9)%N then "\t"
  else if (n =? 8)%N then "\b"
  else if (n =? 12)%N then "\f"
  else if (n <? 32)%N then u_escape c
  else if (n <? 127)%N then String c ""
  else if ascii_only then u_escape c
  else if (n =? 127)%N then String c ""
  else String (ascii_of_N (192 + n / 64)) (String (ascii_of_N (128 + n mod 64)) "").

Fixpoint dump_chars (ascii_only : bool) (s : string) : string :=
  match s with
  | String c s' => dump_char ascii_only c ++ dump_chars ascii_only s'
  | EmptyString => EmptyString
  end.

Definition dump_string (ascii_only : bool) (s : string) : string :=
  String "034" (dump_chars ascii_only s ++ String "034" "").

(** The printer, with the item and key separators, [ensure_ascii] and
    [allow_nan]. *)
Fixpoint dump (item_sep key_sep : string) (ascii_only allow_nan : bool) (v : doc)
    : option string :=
  match v with
  | VNone => Some "null"
  | VBool true => Some "true"
  | VBool false => Some "false"
  | VInt z => Some (PyStr.of_Z z)
  | VFloat (WholeFloat.Num z) => Some (PyStr.of_Z z ++ ".0")
  | VFloat WholeFloat.PosInf => if allow_nan then Some "Infinity" else None
  | VFloat WholeFloat.NegInf => if allow_nan then Some "-Infinity" else None
  | VStr s => Some (dump_string ascii_only s)
  | VList l =>
      option_map (fun parts => "[" ++ PyStr.join item_sep parts ++ "]")
        (mapM (dump item_sep key_sep ascii_only allow_nan) l)
  | VDict d =>
      option_map (fun parts => "{" ++ PyStr.join item_sep parts ++ "}")
        (mapM (fun kv => let '(k, x) := kv in
                         option_map (fun t => dump_string ascii_only k ++ key_sep ++ t)
                                    (dump item_sep key_sep ascii_only allow_nan x)) d)
  end.

#[global] Instance codec : JsonCodec WholeFloat.t := {
  json_loads := loads;
  json_loads_bytes := loads_bytes;
  json_dumps := dump ", " ": " true true;
  json_render := dump "," ":" false false
}.

End ExampleJson.

(** ** The statements of the specification, in its own words *)

(** The shape the specification gives for an accepted address: there is an
    ["@"], and what follows the last one has a ["."]. *)
Definition email_shape (s : string) : Prop :=
  exists pre post,
    s = pre ++ String "@" post
    /\ PyStr.contains_char "@" post = false
    /\ PyStr.contains_char "." post = true.

(** A message is about a field when it starts with the field's name and a
    space. *)
Definition names_field (field_name e : string) : bool :=
  String.prefix (field_name ++ " ") e.

(** A message is about one of the [fields]. *)
Definition named (fields : list string) (e : string) : Prop :=
  exists name, In name fields /\ names_field name e = true.

(** "Exactly of the form YYYY-MM-DD": four digits, a dash, two digits, a
    dash, two digits, and the three numbers are a calendar date. *)
Definition strict_ymd (s : string) : bool :=
  match s with
  | String y1 (String y2 (String y3 (String y4 (String c1
      (String m1 (String m2 (String c2 (String d1 (String d2 EmptyString))))))))) =>
      forallb PyStr.isdigit [y1; y2; y3; y4; m1; m2; d1; d2]
      && Ascii.eqb c1 "-" && Ascii.eqb c2 "-"
      && Strptime.valid_date
           (1000 * PyStr.digit_val y1 + 100 * PyStr.digit_val y2
            + 10 * PyStr.digit_val y3 + PyStr.digit_val y4)
           (10 * PyStr.digit_val m1 + PyStr.digit_val m2)
           (10 * PyStr.digit_val d1 + PyStr.digit_val d2)
  | _ => false
  end.

(** The decimal digits. *)
Definition digit_chars : list ascii :=
  ["0"; "1"; "2"; "3"; "4"; "5"; "6"; "7"; "8"; "9"]%char.

(** The ways to write a number below 100 that [strptime] reads: with two
    digits, and below 10 also with one. *)
Definition digit_char (n : Z) : ascii := ascii_of_N (48 + Z.to_N n).

Definition two_digits (n : Z) : string :=
  String (digit_char (n / 10)) (String (digit_char (n mod 10)) EmptyString).

Definition one_digit (n : Z) : string := String (digit_char n) EmptyString.

Definition upto (n : nat) : list Z := map Z.of_nat (seq 1 n).

(** The writings of a month, each with the month it denotes. *)
Definition month_forms : list (string * Z) :=
  map (fun n => (two_digits n, n)) (upto 12) ++ map (fun n => (one_digit n, n)) (upto 9).

(** The writings of a day: also a single digit after a space. *)
Definition day_forms : list (string * Z) :=
  map (fun n => (two_digits n, n)) (upto 31)
  ++ map (fun n => (one_digit n, n)) (upto 9)
  ++ map (fun n => (String " " (one_digit n), n)) (upto 9).

(** The dates [strptime] reads with ["%Y-%m-%d"]: a year of four digits, a
    month and a day in one of their writings, dashes between them, and the
    three numbers are a calendar date. *)
Definition ymd_form (s : string) : Prop :=
  exists (y1 y2 y3 y4 : ascii) (mw dw : string) (m d : Z),
    forallb PyStr.isdigit [y1; y2; y3; y4] = true
    /\ In (mw, m) month_forms
    /\ In (dw, d) day_forms
    /\ s = String y1 (String y2 (String y3 (String y4
              (String "-" (mw ++ String "-" dw)))))
    /\ Strptime.valid_date
         (1000 * PyStr.digit_val y1 + 100 * PyStr.digit_val y2
          + 10 * PyStr.digit_val y3 + PyStr.digit_val y4) m d = true.

(** A pattern character that [SCAN ... MATCH] reads as itself. *)
Definition is_special (c : ascii) : bool :=
  Ascii.eqb c "*" || Ascii.eqb c "?" || Ascii.eqb c "[" || Ascii.eqb c "\".

(** A prefix with no special character. *)
Fixpoint literal (p : string) : bool :=
  match p with
  | String c p' => negb (is_special c) && literal p'
  | EmptyString => true
  end.

(** The keyspace without the keys of a list. *)
Definition remove_all (keys : list string) (m : gmap string Redis.entry)
    : gmap string Redis.entry :=
  foldl (fun d k => delete k d) m keys.

(** The keys a scan yields. *)
Definition scanned (now : Z) (c : Redis.client) (pattern : string) : list string :=
  (filter (fun kv => Redis.key_matches pattern kv.1 && Redis.live now kv.2 = true)
          (map_to_list (Redis.db c))).*1.

(** A key is visible when the keyspace holds it and it has not expired. *)
Definition visible (now : Z) (c : Redis.client) (key : string) : bool :=
  match Redis.db c !! key with
  | Some e => Redis.live now e
  | None => false
  end.


Definition later {W : Type} (dt : Z) (m : machine (W := W)) : machine (W := W) :=
  {| r := r m; now := now m + dt; world := world m; trace := trace m |}.

(** The events of a trace that are calls of the handler. *)
Definition is_call (e : event) : bool :=
  match e with CallNext _ => true | _ => false end.

Definition calls (t : list event) : list event := List.filter is_call t.

(** The invalidation policy the middleware applies after a write: the key
    pattern to sweep and the family named in the log line, if any. *)
Definition invalidation_pattern (p : string) : option (string * string) :=
  if PyStr.contains "/forms" p || PyStr.contains "/create_form" p
  then Some ("GET:/api/forms*", "/api/forms/*")
  else if PyStr.contains "/submissions" p
  then Some ("GET:/api/submissions*", "/api/submissions/*")
  else None.


(** ** Scenarios for the examples *)

(** A handler that counts its calls and always answers 200 with the body
    it is given. *)
Definition constant_handler (body : string) (req : request) (calls : nat)
    : result response * nat :=
  (Ok {| status_code := 200; body_iterator := [body] |}, S calls).

Definition start (c : Redis.client) : machine (W := nat) :=
  {| r := Some c; now := 0; world := O; trace := [] |}.

Definition keyspace (l : list (string * string * Z)) : Redis.client :=
  {| Redis.db := list_to_map
                   (map (fun '(k, v, t) => (k, {| Redis.payload := v; Redis.expires_at := t |})) l);
     Redis.connected := true |}.

Definition get_forms : request :=
  {| method := "GET"; path := "/api/forms/"; query := "" |}.

(** ** [validators.py]: the duplicate checks *)

(** [s.lower()] on the code points 0..255: the capital letters A..Z and
    the capital letters of the Latin-1 block (all of 192..222 but the
    multiplication sign) move up by 32. *)
Definition lower_char (c : ascii) : ascii :=
  let n := PyStr.code c in
  if (((65 <=? n) && (n <=? 90))
      || ((192 <=? n) && (n <=? 222) && negb (n =? 215)))%N
  then ascii_of_N (n + 32)
  else c.

Fixpoint py_lower (s : string) : string :=
  match s with
  | String c s' => String (lower_char c) (py_lower s')
  | EmptyString => EmptyString
  end.

(** A row of the table [submissions] ([models.py]); [user_email] is
    nullable. *)
Record submission (F : Type) : Type := {
  sub_id : Z;
  sub_form_schema_id : Z;
  sub_form_name : string;
  sub_data : list (string * value F);
  sub_user_email : option string;
  sub_validation_status : string;
  sub_is_duplicate : bool
}.
Arguments sub_id {F} s.
Arguments sub_form_schema_id {F} s.
Arguments sub_form_name {F} s.
Arguments sub_data {F} s.
Arguments sub_user_email {F} s.
Arguments sub_validation_status {F} s.
Arguments sub_is_duplicate {F} s.

(** [submission.user_email and submission.user_email.lower() == email.lower()] *)
Definition same_email {F : Type} (email : string) (s : submission F) : bool :=
  match sub_user_email s with
  | Some e => negb (String.eqb e "") && String.eqb (py_lower e) (py_lower email)
  | None => false
  end.

(** The loop of [check_duplicate_email]. *)
Fixpoint any_same_email {F : Type} (email : string) (subs : list (submission F)) : bool :=
  match subs with
  | [] => false
  | s :: rest => if same_email email s then true else any_same_email email rest
  end.

(** [check_duplicate_email(email, form_id, existing_submissions)] *)
Definition check_duplicate_email {F : Type} (email : string) (form_id : Z)
    (existing_submissions : list (submission F)) : bool :=
  if String.eqb email "" then false
  else any_same_email email existing_submissions.

(** The types [validate_form_data] knows. *)
Definition known_types : list string :=
  ["string"; "text"; "email"; "password"; "date"; "number"; "dropdown"].

(** ** [routes/submission.py]: the pagination of [list_submissions]

    Steps 7 and 8 of the handler, on the rows the filtered and sorted query
    yields: [query.count()], [query.offset(skip).limit(limit).all()] and the
    page counters of the answer.  [page] and [limit] arrive checked by the
    framework ([page >= 1], [5 <= limit <= 100]). *)

Module Pagination.

Record t (A : Type) : Type := {
  total : Z;
  page : Z;
  limit : Z;
  total_pages : Z;
  has_next : bool;
  has_prev : bool;
  submissions : list A
}.
Arguments total {A} _.
Arguments page {A} _.
Arguments limit {A} _.
Arguments total_pages {A} _.
Arguments has_next {A} _.
Arguments has_prev {A} _.
Arguments submissions {A} _.

Definition paginate {A : Type} (rows : list A) (page limit : Z) : t A :=
  let total := Z.of_nat (length rows) in
  let skip := (page - 1) * limit in
  let submissions := firstn (Z.to_nat limit) (skipn (Z.to_nat skip) rows) in
  let total_pages := (total + limit - 1) / limit in
  {| total := total;
     page := page;
     limit := limit;
     total_pages := total_pages;
     has_next := page <? total_pages;
     has_prev := 1 <? page;
     submissions := submissions |}.

End Pagination.

(** * Properties *)

Example strip_example : PyStr.strip "  a b  " = "a b".
Proof. reflexivity. Qed.

Example after_last_example : PyStr.after_last "@" "a@b@c.d" = "c.d".
Proof. reflexivity. Qed.

Example of_Z_example : PyStr.of_Z (-18) = "-18" /\ PyStr.of_Z 0 = "0".
Proof. split; reflexivity. Qed.

Example strptime_plain : Strptime.strptime_Ymd "2023-11-04" = Some (2023, 11, 4).
Proof. reflexivity. Qed.

Example strptime_month_13 : Strptime.strptime_Ymd "2023-13-40" = None.
Proof. reflexivity. Qed.

Example strptime_feb_29 :
  Strptime.strptime_Ymd "2024-02-29" = Some (2024, 2, 29)
  /\ Strptime.strptime_Ymd "2023-02-29" = None.
Proof. split; reflexivity. Qed.

(** The four examples of the specification. *)

Example validate_required_example :
  validate_form_data (F := WholeFloat.t) []
    [("name", VDict [("type", VStr "string"); ("required", VBool true)])]
  = Ok (false, ["name is required"]).
Proof. reflexivity. Qed.

Example validate_min_example :
  validate_form_data (F := WholeFloat.t) [("age", VStr "15")]
    [("age", VDict [("type", VStr "number"); ("min", VInt 18)])]
  = Ok (false, ["age must be at least 18"]).
Proof. reflexivity. Qed.

Example validate_dropdown_example :
  validate_form_data (F := WholeFloat.t) [("role", VStr "admin")]
    [("role", VDict [("type", VStr "dropdown");
                     ("options", VList [VStr "user"; VStr "admin"])])]
  = Ok (true, []).
Proof. reflexivity. Qed.

Example validate_date_example :
  validate_form_data (F := WholeFloat.t) [("joined", VStr "2023-13-40")]
    [("joined", VDict [("type", VStr "date")])]
  = Ok (false, ["joined must be in YYYY-MM-DD format"]).
Proof. reflexivity. Qed.

Example repr_example :
  py_str (VList [VStr "a'b"; VInt 3; VNone; VDict [("k", VBool true)]] : doc)
  = String "[" (String "034" "a'b") ++ String "034" ", 3, None, {'k': True}]".
Proof. reflexivity. Qed.

(** ** The validation engine *)

Section ValidatorFacts.

Context {F : Type} `{!PyFloat F}.

Local Abbreviation value := (value F).
Local Abbreviation dict := (list (string * value)).

Lemma prefix_append (a b : string) : String.prefix a (a ++ b) = true.
Proof.
  induction a as [|c a IH]; simpl.
  - now destruct b.
  - destruct (ascii_dec c c); [exact IH | congruence].
Qed.

Lemma truthy_not_none (v : value) : truthy v = true -> is_none v = false.
Proof. now destruct v. Qed.

Lemma truthy_not_empty_str (v : value) : truthy v = true -> eq_str v "" = false.
Proof.
  destruct v; simpl; try reflexivity.
  intros H. now apply negb_true_iff in H.
Qed.

(** A value that passes the test [if not value] reaches the dispatch on the
    type, whatever [required] is. *)
Lemma validate_field_present (data cfg : dict) (field_name : string) (v : value) :
  dict_find field_name data = Some v ->
  truthy v = true ->
  validate_field data field_name (VDict cfg)
  = check_type field_name cfg (dict_get cfg "type" VNone) (PyStr.strip (py_str v)).
Proof.
  intros Hv Ht.
  assert (Hg : dict_get data field_name VNone = v)
    by (unfold dict_get; now rewrite Hv).
  unfold validate_field. rewrite Hg.
  rewrite (truthy_not_none _ Ht), (truthy_not_empty_str _ Ht), Ht.
  now rewrite andb_false_r.
Qed.

(** A value that fails the test is skipped when the field is not required. *)
Lemma validate_field_skipped (data cfg : dict) (field_name : string) :
  truthy (dict_get data field_name VNone) = false ->
  truthy (dict_get cfg "required" (VBool false)) = false ->
  validate_field data field_name (VDict cfg) = Ok [].
Proof.
  intros Hv Hr. unfold validate_field. now rewrite Hr, Hv.
Qed.

(** With [required], a missing value stops the iteration at its first test. *)
Lemma validate_field_required (data cfg : dict) (field_name : string) :
  truthy (dict_get cfg "required" (VBool false)) = true ->
  dict_find field_name data = None
  \/ dict_find field_name data = Some VNone
  \/ dict_find field_name data = Some (VStr "") ->
  validate_field data field_name (VDict cfg) = Ok [field_name ++ " is required"].
Proof.
  intros Hr Hv.
  assert (Hg : is_none (dict_get data field_name VNone)
               || eq_str (dict_get data field_name VNone) "" = true)
    by (unfold dict_get; now destruct Hv as [-> | [-> | ->]]).
  unfold validate_field. now rewrite Hr, Hg.
Qed.

Lemma validate_fields_step (data rest : dict) (field_name : string)
    (field_config : value) (errors errs : list string) :
  validate_field data field_name field_config = Ok errs ->
  validate_fields data ((field_name, field_config) :: rest) errors
  = validate_fields data rest (errors ++ errs).
Proof. intros H. simpl. now rewrite H. Qed.

End ValidatorFacts.

(** C5.  A required field whose payload value is absent, null or the empty
    string gets exactly the message ["<field> is required"]: the iteration
    for that field appends it and nothing else, whatever the type and the
    constraints of the field are, and the loop goes on with the next field.
    In particular [validate({}, {"name": {type: string, required: true}})]
    is [(False, ["name is required"])]. *)
Theorem required_field_missing :
  forall (F : Type) (PF : PyFloat F) (data cfg rest : list (string * value F))
         (field_name : string) (errors : list string),
    dict_find "required" cfg = Some (VBool true) ->
    dict_find field_name data = None
    \/ dict_find field_name data = Some VNone
    \/ dict_find field_name data = Some (VStr "") ->
    validate_field data field_name (VDict cfg) = Ok [field_name ++ " is required"]
    /\ validate_fields data ((field_name, VDict cfg) :: rest) errors
       = validate_fields data rest (errors ++ [field_name ++ " is required"])
    /\ validate_form_data []
         [("name", VDict [("type", VStr "string"); ("required", VBool true)])]
       = Ok (false, ["name is required"]).
Proof.
  intros F PF data cfg rest field_name errors Hreq Hval.
  assert (Hfield : validate_field data field_name (VDict cfg)
                   = Ok [field_name ++ " is required"]).
  { apply validate_field_required; [|exact Hval].
    unfold dict_get. now rewrite Hreq. }
  split; [exact Hfield|]. split; [|reflexivity].
  now apply validate_fields_step.
Qed.

Lemma required_field_missing_witness :
  validate_field (F := WholeFloat.t) [("name", VStr "")] "name"
    (VDict [("type", VStr "email"); ("required", VBool true)])
  = Ok ["name is required"].
Proof.
  apply (required_field_missing WholeFloat.t _ [("name", VStr "")]
           [("type", VStr "email"); ("required", VBool true)] [] "name" []).
  - reflexivity.
  - right. right. reflexivity.
Defined.

(** C6.  The test [if not value] skips every falsy value, not only the
    absent and the empty ones: the integer 0 in a number field with
    [min = 18] passes without any check, required or not, while the same
    number written as a string is checked and refused. *)
Theorem zero_is_skipped :
  (forall (F : Type) (PF : PyFloat F),
      validate_form_data (F := F) [("age", VInt 0)]
        [("age", VDict [("type", VStr "number"); ("min", VInt 18)])]
      = Ok (true, [])
      /\ validate_form_data (F := F) [("age", VInt 0)]
           [("age", VDict [("type", VStr "number"); ("required", VBool true);
                           ("min", VInt 18)])]
         = Ok (true, []))
  /\ validate_form_data (F := WholeFloat.t) [("age", VStr "0")]
       [("age", VDict [("type", VStr "number"); ("min", VInt 18)])]
     = Ok (false, ["age must be at least 18"]).
Proof. split; [intros F PF; split|]; reflexivity. Qed.

Section EmailFacts.

(** What follows the last [c] of a string that has one. *)
Lemma after_last_split (c : ascii) (s : string) :
  PyStr.contains_char c s = true ->
  exists pre, s = pre ++ String c (PyStr.after_last c s)
              /\ PyStr.contains_char c (PyStr.after_last c s) = false.
Proof.
  induction s as [|d s IH]; [discriminate|].
  intros H. cbn [PyStr.after_last]. rewrite H.
  destruct (PyStr.contains_char c s) eqn:Hs.
  - destruct (IH eq_refl) as (pre & Heq & Hno).
    exists (String d pre). split; [|exact Hno].
    rewrite Heq at 1. reflexivity.
  - simpl in H. rewrite Hs in H.
    destruct (Ascii.eqb_spec c d) as [->|]; [|discriminate].
    exists EmptyString. now split.
Qed.

Lemma contains_char_append (c : ascii) (pre post : string) :
  PyStr.contains_char c (pre ++ String c post) = true.
Proof.
  induction pre as [|d pre IH]; simpl.
  - now rewrite Ascii.eqb_refl.
  - rewrite IH. now destruct (Ascii.eqb c d).
Qed.

Lemma after_last_append (c : ascii) (pre post : string) :
  PyStr.contains_char c post = false ->
  PyStr.after_last c (pre ++ String c post) = post.
Proof.
  intros Hno. induction pre as [|d pre IH].
  - assert (H0 : PyStr.contains_char c (String c post) = true)
      by apply (contains_char_append c EmptyString post).
    change (EmptyString ++ String c post) with (String c post).
    cbn [PyStr.after_last]. now rewrite H0, Hno.
  - change (String d pre ++ String c post) with (String d (pre ++ String c post)).
    cbn [PyStr.after_last].
    assert (H : PyStr.contains_char c (String d (pre ++ String c post)) = true)
      by (simpl; rewrite contains_char_append; now destruct (Ascii.eqb c d)).
    rewrite H, contains_char_append. exact IH.
Qed.

End EmailFacts.

(** X19.  The email check on the values that reach it.  For a field of
    type email whose value passes the test [if not value], no error is
    emitted exactly when the trimmed string has an ["@"] and a ["."] after
    its last ["@"]; otherwise the one error is ["<field> must be a valid
    email address"].  So ["a@b@c.d"] is accepted and ["a.b@c"] is not. *)
Theorem email_accepted_iff_shape :
  forall (F : Type) (PF : PyFloat F) (data cfg : list (string * value F))
         (field_name : string) (v : value F),
    dict_find "type" cfg = Some (VStr "email") ->
    dict_find field_name data = Some v ->
    truthy v = true ->
    (validate_field data field_name (VDict cfg) = Ok []
     <-> email_shape (PyStr.strip (py_str v)))
    /\ (validate_field data field_name (VDict cfg) = Ok []
        \/ validate_field data field_name (VDict cfg)
           = Ok [field_name ++ " must be a valid email address"])
    /\ validate_form_data (F := F) [("mail", VStr "a@b@c.d")]
         [("mail", VDict [("type", VStr "email")])] = Ok (true, [])
    /\ validate_form_data (F := F) [("mail", VStr "a.b@c")]
         [("mail", VDict [("type", VStr "email")])]
       = Ok (false, ["mail must be a valid email address"]).
Proof.
  intros F PF data cfg field_name v Hty Hv Ht.
  rewrite (validate_field_present data cfg field_name v Hv Ht).
  unfold dict_get. rewrite Hty. set (s := PyStr.strip (py_str v)).
  unfold check_type. cbn [eq_str String.eqb Ascii.eqb Bool.eqb orb andb].
  split; [|split; [|split; reflexivity]].
  - destruct (PyStr.contains_char "@" s) eqn:Hat; cbn [negb orb].
    + destruct (after_last_split "@" s Hat) as (pre & Heq & Hno).
      destruct (PyStr.contains_char "." (PyStr.after_last "@" s)) eqn:Hdot; cbn [negb].
      * split; [intros _|reflexivity].
        exists pre, (PyStr.after_last "@" s). now repeat split.
      * split; [discriminate|].
        intros (pre' & post & Hs & Hno' & Hdot').
        rewrite Hs, (after_last_append "@" pre' post Hno') in Hdot. congruence.
    + split; [discriminate|].
      intros (pre' & post & Hs & _ & _).
      rewrite Hs, contains_char_append in Hat. discriminate.
  - destruct (negb (PyStr.contains_char "@" s)
              || negb (PyStr.contains_char "." (PyStr.after_last "@" s)));
      [right | left]; reflexivity.
Qed.

Lemma email_accepted_iff_shape_witness :
  validate_field (F := WholeFloat.t) [("mail", VStr " x@y.org ")] "mail"
    (VDict [("type", VStr "email"); ("required", VBool true)]) = Ok []
  <-> email_shape (PyStr.strip (py_str (VStr " x@y.org " : doc))).
Proof.
  apply (email_accepted_iff_shape WholeFloat.t _ [("mail", VStr " x@y.org ")]
           [("type", VStr "email"); ("required", VBool true)] "mail"
           (VStr " x@y.org ")); reflexivity.
Defined.

(** C8.  The email check misses the falsy values.  The integer 0 and the
    boolean [False] are present and are not the empty string, and the
    strings they are written as, ["0"] and ["False"], have no ["@"]; yet an
    email field, required or not, accepts them without an error, because
    [if not value] skips them before the check.  The same text sent as a
    string is refused. *)
Theorem email_check_skips_falsy_values :
  forall (F : Type) (PF : PyFloat F),
    validate_form_data (F := F) [("mail", VInt 0)]
      [("mail", VDict [("type", VStr "email"); ("required", VBool true)])]
    = Ok (true, [])
    /\ validate_form_data (F := F) [("mail", VBool false)]
         [("mail", VDict [("type", VStr "email")])]
       = Ok (true, [])
    /\ PyStr.strip (py_str (VInt 0 : value F)) = "0"
    /\ PyStr.strip (py_str (VBool false : value F)) = "False"
    /\ ~ email_shape "0"
    /\ ~ email_shape "False"
    /\ validate_form_data (F := F) [("mail", VStr "0")]
         [("mail", VDict [("type", VStr "email"); ("required", VBool true)])]
       = Ok (false, ["mail must be a valid email address"]).
Proof.
  intros F PF. repeat split; try reflexivity.
  - intros (pre & post & Hs & _ & _).
    destruct pre as [|a [|b pre]]; discriminate Hs.
  - intros (pre & post & Hs & Hno & Hdot).
    destruct pre as [|a1 [|a2 [|a3 [|a4 [|a5 [|a6 pre]]]]]]; discriminate Hs.
Qed.

Section SchemaOnly.

Context {F : Type} `{!PyFloat F}.

Local Abbreviation value := (value F).
Local Abbreviation dict := (list (string * value)).

Lemma names_field_intro (field_name rest : string) :
  names_field field_name (field_name ++ String " " rest) = true.
Proof.
  unfold names_field. induction field_name as [|c n IH]; simpl.
  - now destruct rest.
  - destruct (ascii_dec c c); [exact IH | congruence].
Qed.

#[local] Hint Resolve names_field_intro : core.

#[local] Hint Extern 1 (names_field ?n (?n ++ _) = true) =>
  apply names_field_intro : core.

Lemma check_type_names_field (field_name : string) (cfg : dict) (ty : value)
    (s : string) (errs : list string) :
  check_type field_name cfg ty s = Ok errs ->
  Forall (fun e => names_field field_name e = true) errs.
Proof.
  unfold check_type. intros H.
  repeat match type of H with
         | (if ?b then _ else _) = _ => destruct b
         | match ?x with _ => _ end = _ => destruct x
         | (let _ := _ in _) = _ => cbv zeta in H
         end;
    try discriminate;
    injection H as <-;
    repeat match goal with
           | |- context [if ?b then _ else _] => destruct b
           end;
    repeat first [apply Forall_nil | apply Forall_cons | apply Forall_app; split];
    cbn [String.append]; auto.
Qed.

Lemma validate_field_names_field (data : dict) (field_name : string)
    (field_config : value) (errs : list string) :
  validate_field data field_name field_config = Ok errs ->
  Forall (fun e => names_field field_name e = true) errs.
Proof.
  unfold validate_field. destruct field_config; try discriminate.
  destruct (_ && _).
  - intros [= <-]. repeat constructor. cbn [String.append]. auto.
  - destruct (negb _).
    + intros [= <-]. constructor.
    + apply check_type_names_field.
Qed.

Lemma validate_fields_named (fields : list string) (data schema : dict)
    (errors errs : list string) :
  incl (map fst schema) fields ->
  validate_fields data schema errors = Ok errs ->
  Forall (named fields) errors ->
  Forall (named fields) errs.
Proof.
  revert errors. induction schema as [|[name config] rest IH]; intros errors Hin.
  - now intros [= <-].
  - simpl. destruct (validate_field data name config) as [es|] eqn:Hf; [|discriminate].
    intros H Hacc. apply (IH (errors ++ es)%list).
    + intros k Hk. apply Hin. now right.
    + exact H.
    + apply Forall_app. split; [exact Hacc|].
      apply validate_field_names_field in Hf.
      eapply Forall_impl; [exact Hf|].
      intros e He. exists name. split; [apply Hin; now left | exact He].
Qed.

(** The iteration for a field reads the payload at that field only. *)
Lemma validate_field_reads_own_key (data data' : dict) (field_name : string)
    (field_config : value) :
  dict_find field_name data = dict_find field_name data' ->
  validate_field data field_name field_config
  = validate_field data' field_name field_config.
Proof.
  intros H. unfold validate_field, dict_get. now rewrite H.
Qed.

Lemma validate_fields_agree (data data' schema : dict) (errors : list string) :
  (forall k, In k (map fst schema) -> dict_find k data = dict_find k data') ->
  validate_fields data schema errors = validate_fields data' schema errors.
Proof.
  revert errors. induction schema as [|[name config] rest IH]; intros errors H.
  - reflexivity.
  - simpl. rewrite (validate_field_reads_own_key data data' name config)
      by (apply H; now left).
    destruct (validate_field data' name config); [|reflexivity].
    apply IH. intros k Hk. apply H. now right.
Qed.

End SchemaOnly.

(** C10.  Only the fields of the schema are inspected.  Two payloads that
    agree on the schema's fields get the same result, so any other key of
    the payload is never checked and adds no message; every message starts
    with the name of a schema field; and with the empty schema every
    payload is valid, with no message. *)
Theorem only_schema_fields_inspected :
  forall (F : Type) (PF : PyFloat F) (data schema : list (string * value F)),
    (forall data' : list (string * value F),
        (forall k, In k (map fst schema) -> dict_find k data = dict_find k data') ->
        validate_form_data data schema = validate_form_data data' schema)
    /\ (forall (valid : bool) (errors : list string),
           validate_form_data data schema = Ok (valid, errors) ->
           Forall (fun e => exists name, In name (map fst schema)
                                         /\ String.prefix (name ++ " ") e = true)
                  errors)
    /\ validate_form_data data [] = Ok (true, []).
Proof.
  intros F PF data schema. split; [|split].
  - intros data' H. unfold validate_form_data.
    now rewrite (validate_fields_agree data data' schema [] H).
  - intros valid errors. unfold validate_form_data.
    destruct (validate_fields data schema []) as [errs|] eqn:Hv; [|discriminate].
    intros [= _ <-].
    apply (validate_fields_named (map fst schema) data schema [] errs);
      [apply incl_refl | exact Hv | constructor].
  - reflexivity.
Qed.

Lemma only_schema_fields_inspected_witness :
  validate_form_data (F := WholeFloat.t)
    [("mail", VStr "nobody"); ("extra", VInt 7)]
    [("mail", VDict [("type", VStr "email")])]
  = validate_form_data (F := WholeFloat.t)
      [("other", VList []); ("mail", VStr "nobody")]
      [("mail", VDict [("type", VStr "email")])].
Proof.
  apply (proj1 (only_schema_fields_inspected WholeFloat.t _
                  [("mail", VStr "nobody"); ("extra", VInt 7)]
                  [("mail", VDict [("type", VStr "email")])])).
  intros k [<- | []]. reflexivity.
Defined.

(** ** Dates *)

Section DateFacts.

Import Strptime.

Lemma isdigit_cases (c : ascii) : PyStr.isdigit c = true -> In c digit_chars.
Proof.
  destruct c as [b0 b1 b2 b3 b4 b5 b6 b7].
  destruct b0, b1, b2, b3, b4, b5, b6, b7; intros H;
    try discriminate H; vm_compute; tauto.
Qed.

Ltac digit_cases H :=
  apply isdigit_cases in H; unfold digit_chars in H; simpl in H;
  repeat destruct H as [<- | H]; [.. | contradiction].

Ltac pick_form :=
  vm_compute; repeat first [left; reflexivity | right].

(** The writing is read off the goal: the characters before [rest]. *)
Ltac pick_writing :=
  match goal with
  | |- exists mw, _ /\ String ?x (String ?y ?r) = mw ++ ?r =>
      exists (String x (String y EmptyString)); split; [pick_form | reflexivity]
  | |- exists mw, _ /\ String ?x ?r = mw ++ ?r =>
      exists (String x EmptyString); split; [pick_form | reflexivity]
  end.

Ltac split_bools :=
  repeat match goal with
         | H : _ && _ = true |- _ => apply andb_true_iff in H; destruct H
         | H : _ || _ = true |- _ => apply orb_true_iff in H; destruct H
         | H : Ascii.eqb _ _ = true |- _ => apply Ascii.eqb_eq in H; subst
         | H : negb _ = true |- _ => apply negb_true_iff in H
         end.

(** Every way [%m] matches is a writing of the month it yields. *)
Lemma match_m_sound (s rest : string) (m : Z) :
  In (m, rest) (match_m s) ->
  exists mw, In (mw, m) month_forms /\ s = mw ++ rest.
Proof.
  destruct s as [|a [|b s2]]; [intros [] | |]; unfold match_m;
    rewrite ?in_app_iff; intros H;
    repeat match type of H with
           | _ \/ _ => destruct H as [H | H]
           | In _ (if ?c then _ else _) => destruct c eqn:?; [|destruct H]
           | In _ [_] => destruct H as [H | []]; injection H as <- <-
           | In _ [] => destruct H
           end;
    split_bools;
    try match goal with
        | H : PyStr.isdigit _ = true |- _ => digit_cases H
        end;
    try match goal with
        | H : Ascii.eqb _ _ = false |- _ => vm_compute in H; discriminate H
        end;
    pick_writing.
Qed.

(** Every way [%d] matches is a writing of the day it yields. *)
Lemma match_d_sound (s rest : string) (d : Z) :
  In (d, rest) (match_d s) ->
  exists dw, In (dw, d) day_forms /\ s = dw ++ rest.
Proof.
  destruct s as [|a [|b s2]]; [intros [] | |]; unfold match_d;
    rewrite ?in_app_iff; intros H;
    repeat match type of H with
           | _ \/ _ => destruct H as [H | H]
           | In _ (if ?c then _ else _) => destruct c eqn:?; [|destruct H]
           | In _ [_] => destruct H as [H | []]; injection H as <- <-
           | In _ [] => destruct H
           end;
    split_bools;
    repeat match goal with
           | H : PyStr.isdigit _ = true |- _ => digit_cases H
           end;
    try match goal with
        | H : Ascii.eqb _ _ = false |- _ => vm_compute in H; discriminate H
        end;
    pick_writing.
Qed.

(** A writing of a day is matched whole, by the first alternative that
    applies. *)
Lemma match_d_complete (dw : string) (d : Z) :
  In (dw, d) day_forms -> head (match_d dw) = Some (d, EmptyString).
Proof.
  intros H. vm_compute in H.
  repeat destruct H as [H | H]; try (injection H as <- <-; reflexivity).
  destruct H.
Qed.

(** After a writing of a month and a dash, the match goes on with the day;
    no later alternative of [%m] can take over. *)
Lemma first_md_complete (mw rest : string) (m : Z) :
  In (mw, m) month_forms ->
  first_md (match_m (mw ++ String "-" rest))
  = option_map (fun '(d, r) => (m, d, r)) (head (match_d rest)).
Proof.
  intros H. vm_compute in H.
  repeat destruct H as [H | H];
    try (injection H as <- <-; cbv -[match_d];
         destruct (match_d rest) as [|[d r] l]; reflexivity).
  destruct H.
Qed.

Lemma first_md_sound (ms : list (Z * string)) (m d : Z) (rest : string) :
  first_md ms = Some (m, d, rest) ->
  exists s, In (m, s) ms /\ match_dash_d s = Some (d, rest).
Proof.
  induction ms as [|[m0 s0] ms IH]; [discriminate|]. simpl.
  destruct (match_dash_d s0) as [[d0 r0]|] eqn:Hd.
  - intros [= <- <- <-]. exists s0. split; [now left | exact Hd].
  - intros H. destruct (IH H) as (s & Hin & Hs). exists s. split; [now right | exact Hs].
Qed.

Lemma head_In {A : Type} (l : list A) (x : A) : head l = Some x -> In x l.
Proof. destruct l; [discriminate|]. intros [= <-]. now left. Qed.

Lemma forallb_digits (y1 y2 y3 y4 : ascii) :
  forallb PyStr.isdigit [y1; y2; y3; y4]
  = PyStr.isdigit y1 && PyStr.isdigit y2 && PyStr.isdigit y3 && PyStr.isdigit y4.
Proof.
  simpl. destruct (PyStr.isdigit y1), (PyStr.isdigit y2), (PyStr.isdigit y3),
    (PyStr.isdigit y4); reflexivity.
Qed.

Lemma append_empty_r (s : string) : s ++ EmptyString = s.
Proof.
  induction s as [|c s IH]; [reflexivity|].
  change (String c (s ++ EmptyString) = String c s). now rewrite IH.
Qed.

(** [strptime] reads exactly the dates of [ymd_form]. *)
Theorem strptime_reads_ymd_form (s : string) :
  (exists ymd, strptime_Ymd s = Some ymd) <-> ymd_form s.
Proof.
  split.
  - intros [[[y m] d] H]. unfold strptime_Ymd in H.
    destruct (regex_match s) as [[[[y' m'] d'] rest]|] eqn:Hre; [|discriminate].
    destruct (String.eqb rest "" && valid_date y' m' d') eqn:Hok; [|discriminate].
    apply andb_true_iff in Hok. destruct Hok as [Hrest Hvalid].
    apply String.eqb_eq in Hrest. subst rest.
    unfold regex_match in Hre.
    destruct s as [|y1 [|y2 [|y3 [|y4 [|dash s']]]]]; try discriminate.
    destruct (PyStr.isdigit y1 && PyStr.isdigit y2 && PyStr.isdigit y3
              && PyStr.isdigit y4 && Ascii.eqb dash "-") eqn:Hhead; [|discriminate].
    apply andb_true_iff in Hhead. destruct Hhead as [Hdigits Hdash].
    apply Ascii.eqb_eq in Hdash. subst dash.
    destruct (first_md (match_m s')) as [[[m0 d0] r0]|] eqn:Hmd; [|discriminate].
    injection Hre as Hy Hm0 Hd0 Hr0. subst y' m0 d0 r0.
    destruct (first_md_sound _ _ _ _ Hmd) as (s0 & Hm & Hdd).
    destruct (match_m_sound _ _ _ Hm) as (mw & Hmw & ->).
    unfold match_dash_d in Hdd.
    destruct s0 as [|c dtxt]; [discriminate|].
    destruct (Ascii.eqb_spec c "-") as [->|]; [|discriminate].
    destruct (match_d_sound _ _ _ (head_In _ _ Hdd)) as (dw & Hdw & ->).
    exists y1, y2, y3, y4, mw, dw, m', d'.
    rewrite forallb_digits.
    rewrite append_empty_r. repeat split; assumption.
  - intros (y1 & y2 & y3 & y4 & mw & dw & m & d & Hdig & Hm & Hd & -> & Hvalid).
    rewrite forallb_digits in Hdig.
    unfold strptime_Ymd, regex_match. rewrite Hdig. cbn [Ascii.eqb Bool.eqb andb].
    rewrite (first_md_complete mw dw m Hm), (match_d_complete dw d Hd).
    cbn [option_map]. rewrite Hvalid. cbn. eauto.
Qed.

Lemma two_digit_month (a b : ascii) :
  PyStr.isdigit a = true -> PyStr.isdigit b = true ->
  (1 <=? 10 * PyStr.digit_val a + PyStr.digit_val b) = true ->
  (10 * PyStr.digit_val a + PyStr.digit_val b <=? 12) = true ->
  In (String a (String b EmptyString), 10 * PyStr.digit_val a + PyStr.digit_val b)
     month_forms.
Proof.
  intros Ha Hb. digit_cases Ha; digit_cases Hb; intros H1 H2;
    first [discriminate H1 | discriminate H2 | pick_form].
Qed.

Lemma two_digit_day (a b : ascii) :
  PyStr.isdigit a = true -> PyStr.isdigit b = true ->
  (1 <=? 10 * PyStr.digit_val a + PyStr.digit_val b) = true ->
  (10 * PyStr.digit_val a + PyStr.digit_val b <=? 31) = true ->
  In (String a (String b EmptyString), 10 * PyStr.digit_val a + PyStr.digit_val b)
     day_forms.
Proof.
  intros Ha Hb. digit_cases Ha; digit_cases Hb; intros H1 H2;
    first [discriminate H1 | discriminate H2 | pick_form].
Qed.

Lemma days_in_month_le (y m : Z) : days_in_month y m <= 31.
Proof.
  unfold days_in_month.
  destruct (m =? 2); [destruct (is_leap y); lia|].
  destruct ((m =? 4) || (m =? 6) || (m =? 9) || (m =? 11)); lia.
Qed.

(** Every string that is exactly of the form YYYY-MM-DD is one of the
    dates [strptime] reads. *)
Lemma strict_ymd_is_ymd_form (s : string) : strict_ymd s = true -> ymd_form s.
Proof.
  unfold strict_ymd.
  destruct s as [|y1 [|y2 [|y3 [|y4 [|c1 [|m1 [|m2 [|c2 [|d1 [|d2 [|]]]]]]]]]]];
    try discriminate.
  intros H. cbn [forallb] in H. split_bools.
  match goal with
  | H : valid_date _ _ _ = true |- _ =>
      pose proof H as Hvalid; unfold valid_date in H
  end.
  split_bools.
  exists y1, y2, y3, y4, (String m1 (String m2 EmptyString)),
    (String d1 (String d2 EmptyString)),
    (10 * PyStr.digit_val m1 + PyStr.digit_val m2),
    (10 * PyStr.digit_val d1 + PyStr.digit_val d2).
  split.
  { rewrite forallb_digits.
    repeat match goal with
           | H : PyStr.isdigit _ = true |- _ => rewrite H; clear H
           end.
    reflexivity. }
  split; [now apply two_digit_month|].
  split; [|split; [reflexivity | exact Hvalid]].
  apply two_digit_day; try assumption.
  match goal with
  | H : (_ <=? days_in_month ?y ?m) = true |- _ =>
      pose proof (days_in_month_le y m); apply Z.leb_le in H; apply Z.leb_le; lia
  end.
Qed.

End DateFacts.

(** C7.  For a field of type date whose value reaches the checks, the one
    possible error is ["<field> must be in YYYY-MM-DD format"], and it is
    emitted exactly when the trimmed string is not a date as [strptime] reads
    it with ["%Y-%m-%d"]: a year of four digits, a month written with one or
    two digits, a day written with one or two digits (or a space and one
    digit), with dashes between them, the three being a calendar date.  A
    string exactly of the form YYYY-MM-DD is therefore accepted, and
    ["2023-13-40"] gives exactly that error. *)
Theorem date_error_iff_not_ymd_form :
  forall (F : Type) (PF : PyFloat F) (data cfg : list (string * value F))
         (field_name : string) (v : value F),
    dict_find "type" cfg = Some (VStr "date") ->
    dict_find field_name data = Some v ->
    truthy v = true ->
    (validate_field data field_name (VDict cfg)
     = Ok [field_name ++ " must be in YYYY-MM-DD format"]
     <-> ~ ymd_form (PyStr.strip (py_str v)))
    /\ (validate_field data field_name (VDict cfg) = Ok []
        <-> ymd_form (PyStr.strip (py_str v)))
    /\ (strict_ymd (PyStr.strip (py_str v)) = true ->
        validate_field data field_name (VDict cfg) = Ok [])
    /\ validate_form_data (F := F) [("joined", VStr "2023-13-40")]
         [("joined", VDict [("type", VStr "date")])]
       = Ok (false, ["joined must be in YYYY-MM-DD format"]).
Proof.
  intros F PF data cfg field_name v Hty Hv Ht.
  rewrite (validate_field_present data cfg field_name v Hv Ht).
  unfold dict_get. rewrite Hty. set (s := PyStr.strip (py_str v)).
  unfold check_type. cbn [eq_str String.eqb Ascii.eqb Bool.eqb orb andb].
  pose proof (strptime_reads_ymd_form s) as Hform.
  assert (Hcases : (Strptime.strptime_Ymd s = None /\ ~ ymd_form s)
                   \/ ((exists ymd, Strptime.strptime_Ymd s = Some ymd) /\ ymd_form s)).
  { destruct (Strptime.strptime_Ymd s) as [ymd|] eqn:Hp.
    - right. split; [eauto | apply Hform; eauto].
    - left. split; [reflexivity|]. intros Hf. apply Hform in Hf.
      destruct Hf as [ymd Hf]. discriminate. }
  destruct Hcases as [[Hp Hno] | [[ymd Hp] Hyes]]; rewrite Hp.
  - repeat split; try reflexivity; try tauto; try discriminate.
    intros Hstrict. destruct Hno. now apply strict_ymd_is_ymd_form.
  - repeat split; try reflexivity; try tauto; try discriminate.
Qed.

Lemma date_error_iff_not_ymd_form_witness :
  validate_field (F := WholeFloat.t) [("joined", VStr "2024-02-29")] "joined"
    (VDict [("type", VStr "date")]) = Ok []
  <-> ymd_form (PyStr.strip (py_str (VStr "2024-02-29" : doc))).
Proof.
  apply (date_error_iff_not_ymd_form WholeFloat.t _ [("joined", VStr "2024-02-29")]
           [("type", VStr "date")] "joined" (VStr "2024-02-29")); reflexivity.
Defined.

(** C7 as stated fails: ["2023-1-5"] is not of the form YYYY-MM-DD with a
    two-digit month and day, and no error is emitted for it; nor for
    ["2023-01- 5"]. *)
Lemma date_one_digit_month_accepted :
  strict_ymd (PyStr.strip "2023-1-5") = false
  /\ validate_form_data (F := WholeFloat.t) [("joined", VStr "2023-1-5")]
       [("joined", VDict [("type", VStr "date")])]
     = Ok (true, [])
  /\ strict_ymd (PyStr.strip "2023-01- 5") = false
  /\ validate_form_data (F := WholeFloat.t) [("joined", VStr "2023-01- 5")]
       [("joined", VDict [("type", VStr "date")])]
     = Ok (true, []).
Proof. repeat split; reflexivity. Qed.

(** ** The cache store *)

Section RedisFacts.

Lemma delete_keys_connected (keys : list string) (c : Redis.client) (n : Z) :
  Redis.connected c = true ->
  delete_keys keys c n
  = (Ok (n + Z.of_nat (length keys)),
     {| Redis.db := remove_all keys (Redis.db c); Redis.connected := true |}).
Proof.
  revert c n. induction keys as [|k keys IH]; intros [m up] n Hup; simpl in Hup; subst up.
  - simpl. now rewrite Z.add_0_r.
  - cbn [delete_keys Redis.delete Redis.connected Redis.db].
    rewrite IH by reflexivity. cbn [Redis.db remove_all foldl length].
    do 2 f_equal. lia.
Qed.

Lemma lookup_remove_all (keys : list string) (m : gmap string Redis.entry) (k : string) :
  remove_all keys m !! k = if decide (k ∈ keys) then None else m !! k.
Proof.
  revert m. induction keys as [|k0 keys IH]; intros m.
  - unfold remove_all. cbn [foldl].
    destruct (decide (k ∈ [])) as [Hin|_]; [|reflexivity].
    now apply elem_of_nil in Hin.
  - unfold remove_all. cbn [foldl]. fold (remove_all keys (delete k0 m)). rewrite IH.
    destruct (decide (k ∈ keys)) as [Hin|Hin];
      destruct (decide (k ∈ k0 :: keys)) as [Hin'|Hin']; try reflexivity.
    + destruct Hin'. now apply list_elem_of_further.
    + apply elem_of_cons in Hin'. destruct Hin' as [->|Hin']; [|contradiction].
      apply lookup_delete_eq.
    + apply lookup_delete_ne. intros ->. apply Hin'. apply list_elem_of_here.
Qed.

Lemma size_remove_all (keys : list string) (m : gmap string Redis.entry) :
  NoDup keys ->
  (forall k, k ∈ keys -> is_Some (m !! k)) ->
  size m = (size (remove_all keys m) + length keys)%nat.
Proof.
  revert m. induction keys as [|k0 keys IH]; intros m Hnd Hin.
  - simpl. lia.
  - apply NoDup_cons in Hnd. destruct Hnd as [Hk0 Hnd].
    destruct (Hin k0) as [e He]; [apply list_elem_of_here|].
    assert (Hrest : forall k, k ∈ keys -> is_Some (delete k0 m !! k)).
    { intros k Hk. rewrite lookup_delete_ne; [apply Hin; now apply list_elem_of_further|].
      intros ->. contradiction. }
    pose proof (IH (delete k0 m) Hnd Hrest) as IH'.
    rewrite (map_size_delete_Some k0 m) in IH' by eauto.
    assert (size m <> 0%nat).
    { intros Hz. apply map_size_empty_inv in Hz. subst m. now rewrite lookup_empty in He. }
    unfold remove_all in *. cbn [foldl length]. lia.
Qed.

Lemma elem_of_scanned (now : Z) (c : Redis.client) (pattern k : string) :
  k ∈ scanned now c pattern
  <-> Redis.key_matches pattern k = true /\ visible now c k = true.
Proof.
  unfold scanned, visible. rewrite list_elem_of_fmap. split.
  - intros ([k' e] & -> & Hin). apply list_elem_of_filter in Hin.
    destruct Hin as [HP Hin]. apply elem_of_map_to_list in Hin. simpl in *.
    rewrite Hin. now apply andb_true_iff in HP.
  - intros [Hm Hv]. destruct (Redis.db c !! k) as [e|] eqn:He; [|discriminate].
    exists (k, e). split; [reflexivity|]. apply list_elem_of_filter. split.
    + simpl. now rewrite Hm, Hv.
    + now apply elem_of_map_to_list.
Qed.

Lemma NoDup_scanned (now : Z) (c : Redis.client) (pattern : string) :
  NoDup (scanned now c pattern).
Proof.
  unfold scanned.
  assert (Hsub : sublist
            (filter (fun kv => Redis.key_matches pattern kv.1 && Redis.live now kv.2 = true)
                    (map_to_list (Redis.db c))).*1
            (map_to_list (Redis.db c)).*1)
    by (apply fmap_sublist, sublist_filter).
  pose proof (NoDup_fst_map_to_list (Redis.db c)) as Hnd.
  eapply sublist_NoDup; eassumption.
Qed.

(** With the connection up, the sweep deletes the scanned keys and counts
    them. *)
Lemma cache_delete_pattern_up (now : Z) (c : Redis.client) (pattern : string) :
  Redis.connected c = true ->
  cache_delete_pattern now (Some c) pattern
  = Ok (Z.of_nat (length (scanned now c pattern)),
        Some {| Redis.db := remove_all (scanned now c pattern) (Redis.db c);
                Redis.connected := true |}).
Proof.
  intros Hup. unfold cache_delete_pattern, Redis.scan_iter. rewrite Hup.
  fold (scanned now c pattern). now rewrite delete_keys_connected.
Qed.

(** What the sweep leaves: no matching key can be read, the other keys are
    as they were, and the keys that went are the visible matching ones. *)
Lemma sweep_result (now : Z) (c : Redis.client) (pattern : string) :
  let c' := {| Redis.db := remove_all (scanned now c pattern) (Redis.db c);
               Redis.connected := true |} in
  (forall k, Redis.key_matches pattern k = true -> Redis.get now c' k = Ok None)
  /\ (forall k, Redis.key_matches pattern k = false ->
                Redis.db c' !! k = Redis.db c !! k)
  /\ (forall k, is_Some (Redis.db c !! k) /\ Redis.db c' !! k = None
                <-> Redis.key_matches pattern k = true /\ visible now c k = true)
  /\ size (Redis.db c)
     = (size (Redis.db c') + length (scanned now c pattern))%nat.
Proof.
  intros c'. subst c'. cbn [Redis.db Redis.connected Redis.get].
  split; [|split; [|split]].
  - intros k Hm. rewrite lookup_remove_all.
    destruct (decide (k ∈ scanned now c pattern)) as [Hin|Hin]; [reflexivity|].
    destruct (Redis.db c !! k) as [e|] eqn:He; [|reflexivity].
    destruct (Redis.live now e) eqn:Hl; [|reflexivity].
    destruct Hin. apply elem_of_scanned. unfold visible. now rewrite He.
  - intros k Hm. rewrite lookup_remove_all.
    destruct (decide (k ∈ scanned now c pattern)) as [Hin|Hin]; [|reflexivity].
    apply elem_of_scanned in Hin. destruct Hin. congruence.
  - intros k. rewrite lookup_remove_all. split.
    + intros [[e He] Hnone].
      destruct (decide (k ∈ scanned now c pattern)) as [Hin|Hin];
        [now apply elem_of_scanned in Hin | congruence].
    + intros Hmv. pose proof (proj2 (elem_of_scanned now c pattern k) Hmv) as Hin.
      split.
      * destruct Hmv as [_ Hv]. unfold visible in Hv.
        destruct (Redis.db c !! k); [eauto | discriminate].
      * destruct (decide (k ∈ scanned now c pattern)); [reflexivity | contradiction].
  - apply size_remove_all; [apply NoDup_scanned|].
    intros k Hk. apply elem_of_scanned in Hk. destruct Hk as [_ Hv].
    unfold visible in Hv. destruct (Redis.db c !! k); [eauto | discriminate].
Qed.

End RedisFacts.

Section PatternFacts.

Lemma literal_head (a : ascii) (p : string) :
  literal (String a p) = true ->
  Ascii.eqb a "*" = false /\ Ascii.eqb a "?" = false
  /\ Ascii.eqb a "[" = false /\ Ascii.eqb a "\" = false /\ literal p = true.
Proof.
  cbn [literal]. unfold is_special. intros H.
  apply andb_true_iff in H. destruct H as [Hs Hp].
  apply negb_true_iff in Hs.
  repeat (apply orb_false_iff in Hs; destruct Hs as [Hs ?]).
  now repeat split.
Qed.

Lemma drop_stars_literal (p : string) :
  literal p = true ->
  Redis.is_empty (Redis.drop_stars (p ++ "*")) = Redis.is_empty p.
Proof.
  destruct p as [|a p]; [reflexivity|]. intros H.
  destruct (literal_head a p H) as (Hstar & _).
  change (String a p ++ "*") with (String a (p ++ "*")).
  unfold Redis.drop_stars. apply Ascii.eqb_neq in Hstar.
  destruct a as [[] [] [] [] [] [] [] []]; try reflexivity.
  now destruct Hstar.
Qed.

Lemma prefix_empty_r (p : string) : String.prefix p "" = Redis.is_empty p.
Proof. now destruct p. Qed.

(** A literal prefix followed by a star matches the keys that start with
    the prefix. *)
Lemma glob_literal_prefix (p key : string) (fuel : nat) :
  literal p = true ->
  (String.length p < fuel)%nat ->
  p <> "" \/ key <> "" ->
  Redis.glob fuel (p ++ "*") key = String.prefix p key.
Proof.
  revert key fuel. induction p as [|a p IH]; intros key fuel Hlit Hfuel Hne.
  - destruct Hne as [Hne | Hne]; [congruence|].
    destruct fuel as [|fuel]; [simpl in Hfuel; lia|].
    destruct key as [|sc s']; [congruence|]. reflexivity.
  - destruct (literal_head a p Hlit) as (Hstar & Hq & Hb & Hs & Hp).
    destruct fuel as [|fuel]; [simpl in Hfuel; lia|].
    change (String a p ++ "*") with (String a (p ++ "*")).
    destruct key as [|sc s']; [reflexivity|].
    cbn [Redis.glob String.prefix]. rewrite Hstar, Hq, Hb, Hs.
    destruct (ascii_dec a sc) as [->|Hne'].
    + rewrite Ascii.eqb_refl.
      destruct s' as [|sc' s''].
      * cbn [Redis.is_empty]. rewrite (drop_stars_literal p Hp).
        now rewrite prefix_empty_r.
      * cbn [Redis.is_empty]. apply IH; [exact Hp | simpl in Hfuel; lia | now right].
    + apply Ascii.eqb_neq in Hne'. now rewrite Hne'.
Qed.

Lemma key_matches_literal_prefix (p key : string) :
  literal p = true ->
  Redis.key_matches (p ++ "*") key = String.prefix p key.
Proof.
  intros Hlit. unfold Redis.key_matches, Redis.glob_match.
  destruct p as [|a p].
  - now destruct key.
  - assert (Heq : String.eqb (String a p ++ "*") "*" = false).
    { change (String a p ++ "*") with (String a (p ++ "*")).
      destruct (literal_head a p Hlit) as (Hstar & _).
      cbn [String.eqb]. rewrite Hstar. reflexivity. }
    rewrite Heq. cbn [orb]. apply glob_literal_prefix; [exact Hlit | | now left].
    change (String a p ++ "*") with (String a (p ++ "*")).
    cbn [String.length].
    assert (H : forall q, String.length (q ++ "*") = S (String.length q))
      by (induction q as [|c q IHq]; [reflexivity|];
          change (String c q ++ "*") with (String c (q ++ "*"));
          cbn [String.length]; now rewrite IHq).
    rewrite H. lia.
Qed.

End PatternFacts.

(** C9.  With the store available, [cache_delete_pattern] removes the
    entries whose key matches the pattern and that the store still shows
    (an expired entry is already a miss): afterwards no matching key can be
    read, no other key is touched, the keys that went are exactly the
    visible matching ones, and the count returned is how many entries the
    keyspace lost.  A pattern made of a literal prefix and a final star
    matches exactly the keys that start with the prefix. *)
Theorem delete_pattern_removes_matching :
  forall (now : Z) (c : Redis.client) (pattern : string),
    Redis.connected c = true ->
    exists (count : Z) (c' : Redis.client),
      cache_delete_pattern now (Some c) pattern = Ok (count, Some c')
      /\ (forall k, Redis.key_matches pattern k = true -> Redis.get now c' k = Ok None)
      /\ (forall k, Redis.key_matches pattern k = false ->
                    Redis.db c' !! k = Redis.db c !! k)
      /\ (forall k, is_Some (Redis.db c !! k) /\ Redis.db c' !! k = None
                    <-> Redis.key_matches pattern k = true /\ visible now c k = true)
      /\ Z.of_nat (size (Redis.db c)) = Z.of_nat (size (Redis.db c')) + count
      /\ (forall prefix key,
             literal prefix = true ->
             Redis.key_matches (prefix ++ "*") key = String.prefix prefix key).
Proof.
  intros now c pattern Hup.
  exists (Z.of_nat (length (scanned now c pattern))),
    {| Redis.db := remove_all (scanned now c pattern) (Redis.db c);
       Redis.connected := true |}.
  destruct (sweep_result now c pattern) as (Hgone & Hkept & Hexact & Hsize).
  split; [now apply cache_delete_pattern_up|].
  split; [exact Hgone|]. split; [exact Hkept|]. split; [exact Hexact|].
  split; [cbn [Redis.db] in *; lia|].
  intros prefix key. apply key_matches_literal_prefix.
Qed.

Lemma delete_pattern_removes_matching_witness :
  exists (count : Z) (c' : Redis.client),
    cache_delete_pattern 10
      (Some (keyspace [("GET:/api/forms/", "[1]", 50);
                       ("GET:/api/forms/7", "[2]", 5);
                       ("GET:/api/submissions/?form_id=7", "[3]", 50)]))
      "GET:/api/forms*" = Ok (count, Some c')
    /\ Redis.get 10 c' "GET:/api/forms/" = Ok None
    /\ Redis.get 10 c' "GET:/api/submissions/?form_id=7" = Ok (Some "[3]")
    /\ count = 1.
Proof.
  destruct (delete_pattern_removes_matching 10
              (keyspace [("GET:/api/forms/", "[1]", 50);
                         ("GET:/api/forms/7", "[2]", 5);
                         ("GET:/api/submissions/?form_id=7", "[3]", 50)])
              "GET:/api/forms*" eq_refl)
    as (count & c' & Hrun & Hgone & Hkept & _ & Hsize & _).
  exists count, c'. split; [exact Hrun|].
  split; [apply Hgone; reflexivity|].
  split.
  - unfold Redis.get.
    assert (Hup : Redis.connected c' = true)
      by (vm_compute in Hrun; now injection Hrun as _ <-).
    rewrite Hup, (Hkept "GET:/api/submissions/?form_id=7" eq_refl). reflexivity.
  - vm_compute in Hrun. now injection Hrun as <- _.
Defined.

(** ** The middleware *)

(** Unfold the monad and the blocks of the middleware, then compute one
    step of the machine. *)
Ltac run :=
  unfold cache_middleware, read_cache, store_response, invalidate, JSONResponse,
    do_cache_get, do_cache_set, do_cache_delete_pattern, await_call_next, print,
    set_r, of_option, of_result, try_except, bind, ret, raise;
  cbn [r now world trace].

Ltac step := cbv beta iota; cbn [r now world trace andb fst snd].

Section GatewayFacts.

Context {F : Type} `{!PyFloat F} `{!JsonCodec F}.
Context {W : Type} (call_next : request -> W -> result response * W).

Local Abbreviation machine := (machine (W := W)).

Lemma mutation_is_not_get (req : request) : is_mutation req = true -> is_get req = false.
Proof.
  unfold is_mutation, is_get. intros H.
  destruct (String.eqb_spec (method req) "GET") as [Hg|]; [|reflexivity].
  rewrite Hg in H. discriminate H.
Qed.

(** A hit: the handler is not reached. *)
Lemma run_hit (req : request) (m : machine) (v : value F) :
  is_get req = true -> is_api req = true ->
  cache_get (now m) (r m) (cache_key_of req) = Ok v ->
  truthy v = true ->
  cache_middleware call_next req m
  = (match json_render v with
     | Some body => Ok {| status_code := 200; body_iterator := [body] |}
     | None => Raise
     end,
     {| r := r m; now := now m; world := world m;
        trace := trace m ++ [CacheHit (path req)] |}).
Proof.
  intros Hget Hapi Hv Ht. run. rewrite Hget, Hapi. step. rewrite Hv. step.
  rewrite Ht. step. now destruct (json_render v).
Qed.

(** A miss on a GET under [/api/] whose handler answers 200 with a body
    that decodes: the document is stored and the body is streamed back. *)
Lemma run_miss_stored (req : request) (m : machine) (v0 d : value F)
    (resp : response) (w1 : W) (r1 : option Redis.client) :
  is_get req = true -> is_api req = true ->
  cache_get (now m) (r m) (cache_key_of req) = Ok v0 ->
  truthy v0 = false ->
  call_next req (world m) = (Ok resp, w1) ->
  status_code resp = 200 ->
  json_loads_bytes (String.concat "" (body_iterator resp)) = Some d ->
  cache_set (now m) (r m) (cache_key_of req) d 3600 = Ok r1 ->
  cache_middleware call_next req m
  = (Ok (StreamingResponse (String.concat "" (body_iterator resp)) 200),
     {| r := r1; now := now m; world := w1;
        trace := trace m ++ [CacheMiss (path req)] ++ [CallNext req]
                         ++ [Cached (path req)] |}).
Proof.
  intros Hget Hapi Hv Ht Hcall Hst Hd Hset. run.
  rewrite Hget, Hapi. step. rewrite Hv. step. rewrite Ht. step.
  rewrite Hcall. step. rewrite Hst. cbn [Z.eqb Pos.eqb]. step. rewrite Hd. step.
  rewrite Hset. step. now rewrite <- !app_assoc.
Qed.

(** A write under [/api/]: the handler first, then the sweep the policy
    asks for, and the handler's response as it is. *)
Lemma run_mutation (req : request) (m : machine) (resp : response) (w1 : W) :
  is_mutation req = true -> is_api req = true ->
  call_next req (world m) = (Ok resp, w1) ->
  cache_middleware call_next req m
  = match invalidation_pattern (path req) with
    | Some (pattern, family) =>
        match cache_delete_pattern (now m) (r m) pattern with
        | Ok (deleted, r') =>
            (Ok resp,
             {| r := r'; now := now m; world := w1;
                trace := trace m ++ [CallNext req]
                                 ++ [Invalidated deleted family (method req)] |})
        | Raise =>
            (Ok resp,
             {| r := r m; now := now m; world := w1;
                trace := trace m ++ [CallNext req] ++ [InvalidationError] |})
        end
    | None =>
        (Ok resp,
         {| r := r m; now := now m; world := w1; trace := trace m ++ [CallNext req] |})
    end.
Proof.
  intros Hmut Hapi Hcall. run.
  rewrite (mutation_is_not_get req Hmut), Hapi, Hmut. step.
  rewrite Hcall. step. unfold invalidation_pattern.
  destruct (PyStr.contains "/forms" (path req) || PyStr.contains "/create_form" (path req)).
  - step.
    destruct (cache_delete_pattern (now m) (r m) "GET:/api/forms*") as [[deleted r']|];
      step; now rewrite <- ?app_assoc.
  - destruct (PyStr.contains "/submissions" (path req)).
    + step.
      destruct (cache_delete_pattern (now m) (r m) "GET:/api/submissions*")
        as [[deleted r']|];
        step; now rewrite <- ?app_assoc.
    + reflexivity.
Qed.

(** When the handler raises, so does the middleware, and nothing is swept. *)
Lemma run_handler_raises (req : request) (m : machine) (w1 : W) :
  is_mutation req = true ->
  call_next req (world m) = (Raise, w1) ->
  cache_middleware call_next req m
  = (Raise, {| r := r m; now := now m; world := w1; trace := trace m ++ [CallNext req] |}).
Proof.
  intros Hmut Hcall. run.
  rewrite (mutation_is_not_get req Hmut). step. now rewrite Hcall.
Qed.

End GatewayFacts.

Section FailOpen.

Context {F : Type} `{!JsonCodec F}.


(** No function of [cache.py] raises, whatever the store does. *)
Lemma cache_ops_never_raise (now : Z) (r : option Redis.client) (key pattern : string)
    (v : value F) (ttl : Z) :
  cache_get now r key <> Raise
  /\ cache_set now r key v ttl <> Raise
  /\ cache_delete r key <> Raise
  /\ cache_delete_pattern now r pattern <> Raise
  /\ cache_clear r <> Raise.
Proof.
  unfold cache_get, cache_set, cache_delete, cache_delete_pattern, cache_clear.
  repeat split; destruct r as [c|]; try discriminate.
  - destruct (Redis.get now c key) as [[data|]|]; try discriminate.
    destruct (negb (String.eqb data "")); [|discriminate].
    destruct (json_loads data); discriminate.
  - destruct (json_dumps v); [|discriminate].
    destruct (Redis.setex now c key ttl s); discriminate.
  - destruct (Redis.delete c key); discriminate.
  - destruct (Redis.scan_iter now c pattern) as [keys|]; [|discriminate].
    destruct (delete_keys keys c 0) as [[count|] c']; discriminate.
  - destruct (Redis.flushdb c); discriminate.
Qed.

End FailOpen.

Section FailOpenGateway.

Context {F : Type} `{!PyFloat F} `{!JsonCodec F}.
Context {W : Type} (call_next : request -> W -> result response * W).


End FailOpenGateway.

Section RoundTrip.

Context {F : Type} `{!JsonCodec F}.

(** Storing with the connection up writes the serialised document with its
    expiry time. *)
Lemma cache_set_up (now : Z) (c : Redis.client) (key s : string) (d : value F) (ttl : Z) :
  Redis.connected c = true -> 0 < ttl -> json_dumps d = Some s ->
  cache_set now (Some c) key d ttl
  = Ok (Some {| Redis.db := <[key := {| Redis.payload := s;
                                        Redis.expires_at := now + ttl |}]> (Redis.db c);
                Redis.connected := true |}).
Proof.
  intros Hup Httl Hs. unfold cache_set, Redis.setex. rewrite Hs, Hup.
  apply Z.ltb_lt in Httl. now rewrite Httl.
Qed.

(** Reading it back before it expires decodes what was written. *)
Lemma cache_get_stored (now dt ttl : Z) (m : gmap string Redis.entry)
    (key s : string) (d' : value F) :
  0 <= dt < ttl -> s <> "" -> json_loads s = Some d' ->
  cache_get (now + dt)
    (Some {| Redis.db := <[key := {| Redis.payload := s;
                                     Redis.expires_at := now + ttl |}]> m;
             Redis.connected := true |}) key
  = Ok d'.
Proof.
  intros Hdt Hne Hs. unfold cache_get, Redis.get. cbn [Redis.connected Redis.db].
  rewrite lookup_insert_eq. unfold Redis.live. cbn [Redis.expires_at Redis.payload].
  assert (Hlive : (now + dt <? now + ttl) = true) by (apply Z.ltb_lt; lia).
  rewrite Hlive. apply String.eqb_neq in Hne. now rewrite Hne, Hs.
Qed.

End RoundTrip.

(** C1.  On a GET under [/api/] whose key ["<METHOD>:<path>[?<query>]"]
    the store answers with a document that passes the test
    [if cached_data] (it is not empty, zero or false), the handler is not
    invoked: the world is untouched, the trace gains the hit line only, and
    the outcome is the same whatever the handler is.  When [JSONResponse]
    can render the document (it holds no NaN and no infinite number), the
    middleware answers with that rendering, status 200. *)
Theorem cache_hit_skips_handler :
  forall (F : Type) (PF : PyFloat F) (JC : JsonCodec F) (W : Type)
         (call_next : request -> W -> result response * W)
         (req : request) (m : machine (W := W)) (v : value F),
    is_get req = true ->
    is_api req = true ->
    cache_get (now m) (r m) (cache_key_of req) = Ok v ->
    truthy v = true ->
    (forall body : string,
        json_render v = Some body ->
        cache_middleware call_next req m
        = (Ok {| status_code := 200; body_iterator := [body] |},
           {| r := r m; now := now m; world := world m;
              trace := trace m ++ [CacheHit (path req)] |}))
    /\ snd (cache_middleware call_next req m)
       = {| r := r m; now := now m; world := world m;
            trace := trace m ++ [CacheHit (path req)] |}
    /\ calls (trace (snd (cache_middleware call_next req m))) = calls (trace m)
    /\ (forall call_next' : request -> W -> result response * W,
           cache_middleware call_next' req m = cache_middleware call_next req m)
    /\ cache_key_of req
       = if String.eqb (query req) ""
         then method req ++ ":" ++ path req
         else (method req ++ ":" ++ path req) ++ "?" ++ query req.
Proof.
  intros F PF JC W call_next req m v Hget Hapi Hv Ht.
  pose proof (run_hit call_next req m v Hget Hapi Hv Ht) as Hrun.
  split; [|split; [|split; [|split]]].
  - intros body Hbody. rewrite Hrun, Hbody. reflexivity.
  - rewrite Hrun. reflexivity.
  - rewrite Hrun. cbn [snd trace]. unfold calls.
    rewrite List.filter_app. cbn [List.filter is_call]. now rewrite app_nil_r.
  - intros call_next'. rewrite Hrun. now apply run_hit.
  - unfold cache_key_of. now destruct (String.eqb (query req) "").
Qed.

Lemma cache_hit_skips_handler_witness :
  cache_middleware (constant_handler "[3]") get_forms
    (start (keyspace [("GET:/api/forms/", "[1, 2]", 50)]))
  = (Ok {| status_code := 200; body_iterator := ["[1,2]"] |},
     {| r := Some (keyspace [("GET:/api/forms/", "[1, 2]", 50)]);
        now := 0; world := O; trace := [CacheHit "/api/forms/"] |}).
Proof.
  exact (proj1 (cache_hit_skips_handler WholeFloat.t _ _ nat (constant_handler "[3]")
                  get_forms (start (keyspace [("GET:/api/forms/", "[1, 2]", 50)]))
                  (VList [VInt 1; VInt 2]) eq_refl eq_refl eq_refl eq_refl)
           "[1,2]" eq_refl).
Defined.

(** C1 as stated fails, in two ways.  The store holds the unexpired entry
    ["{}"] under the key of the request and the lookup returns the empty
    object, yet the handler is invoked.  And the store holds the unexpired
    entry ["[Infinity]"], which [json.dumps] writes and [json.loads] reads:
    the lookup returns the list, the handler is not invoked, and the
    middleware does not return the value, [JSONResponse] raises. *)
Lemma cached_value_not_always_returned :
  (let m := start (keyspace [("GET:/api/forms/", "{}", 3600)]) in
   cache_key_of get_forms = "GET:/api/forms/"
   /\ cache_get (now m) (r m) (cache_key_of get_forms) = Ok (VDict [] : doc)
   /\ world (snd (cache_middleware (constant_handler "{}") get_forms m)) = 1%nat
   /\ trace (snd (cache_middleware (constant_handler "{}") get_forms m))
      = [CacheMiss "/api/forms/"; CallNext get_forms; Cached "/api/forms/"])
  /\ (let m := start (keyspace [("GET:/api/forms/", "[Infinity]", 3600)]) in
      cache_get (now m) (r m) (cache_key_of get_forms)
      = Ok (VList [VFloat WholeFloat.PosInf] : doc)
      /\ truthy (VList [VFloat WholeFloat.PosInf] : doc) = true
      /\ cache_middleware (constant_handler "[3]") get_forms m
         = (Raise,
            {| r := r m; now := 0; world := 0%nat; trace := [CacheHit "/api/forms/"] |})).
Proof. repeat split; vm_compute; reflexivity. Qed.



Section Transparency.

Context {F : Type} `{!PyFloat F} `{!JsonCodec F}.
Context {W : Type} (call_next : request -> W -> result response * W).

(** With no client, what the caller gets next to what the handler
    returned: the same status, and the same body in one chunk, unless the
    body of a 200 answer to a GET under [/api/] does not decode; the
    [except] branch then returns the response whose iterator was read. *)
Lemma no_client_response (req : request) (m : machine (W := W)) (resp : response) (w1 : W) :
  r m = None ->
  call_next req (world m) = (Ok resp, w1) ->
  exists resp',
    fst (cache_middleware call_next req m) = Ok resp'
    /\ status_code resp' = status_code resp
    /\ (String.concat "" (body_iterator resp') = String.concat "" (body_iterator resp)
        \/ (is_get req && is_api req && (status_code resp =? 200) = true
            /\ json_loads_bytes (String.concat "" (body_iterator resp)) = None
            /\ body_iterator resp' = [])).
Proof.
  destruct m as [r0 n0 w0 t0]. cbn [r world]. intros -> Hcall. run.
  destruct (is_get req && is_api req) eqn:Hga; step.
  - cbn [cache_get truthy]. step. rewrite Hcall. step.
    destruct (status_code resp =? 200) eqn:Hst; step.
    + destruct (json_loads_bytes (String.concat "" (body_iterator resp))) eqn:Hd; step.
      * cbn [cache_set]. step. eexists. split; [reflexivity|]. split.
        -- cbn [StreamingResponse status_code]. reflexivity.
        -- left. cbn [StreamingResponse body_iterator String.concat]. reflexivity.
      * eexists. split; [reflexivity|]. split; [reflexivity|]. right. now repeat split.
    + destruct (is_mutation req && is_api req); step.
      * destruct (PyStr.contains "/forms" (path req)
                  || PyStr.contains "/create_form" (path req)); step;
          [|destruct (PyStr.contains "/submissions" (path req)); step];
          cbn [cache_delete_pattern]; step; eexists; repeat split; now left.
      * eexists; repeat split; now left.
  - rewrite Hcall. step.
    destruct (is_mutation req && is_api req); step.
    + destruct (PyStr.contains "/forms" (path req)
                || PyStr.contains "/create_form" (path req)); step;
        [|destruct (PyStr.contains "/submissions" (path req)); step];
        cbn [cache_delete_pattern]; step; eexists; repeat split; now left.
    + eexists; repeat split; now left.
Qed.

End Transparency.

(** C3.  A cacheable GET issued twice, store healthy, nothing in between
    but less than the 3600 seconds of the entry.  When the first request is
    a miss and the handler answers 200 with a body that decodes as JSON
    into a document that is still truthy when read back from the store and
    that [JSONResponse] can render (it holds no NaN and no infinite
    number), the first response streams the handler's body, and the second
    is served from the cache without invoking the handler: it is the
    [JSONResponse] of the document, status 200, and it is the first
    response byte for byte exactly when the handler's body was already that
    compact rendering. *)
Theorem second_get_served_from_cache :
  forall (F : Type) (PF : PyFloat F) (JC : JsonCodec F) (W : Type)
         (call_next : request -> W -> result response * W)
         (req : request) (m : machine (W := W)) (c : Redis.client)
         (v0 d d' : value F) (resp : response) (w1 : W) (s body' : string) (dt : Z),
    is_get req = true ->
    is_api req = true ->
    r m = Some c ->
    Redis.connected c = true ->
    cache_get (now m) (r m) (cache_key_of req) = Ok v0 ->
    truthy v0 = false ->
    call_next req (world m) = (Ok resp, w1) ->
    status_code resp = 200 ->
    json_loads_bytes (String.concat "" (body_iterator resp)) = Some d ->
    json_dumps d = Some s ->
    s <> "" ->
    json_loads s = Some d' ->
    truthy d' = true ->
    json_render d' = Some body' ->
    0 <= dt < 3600 ->
    let body := String.concat "" (body_iterator resp) in
    let first := cache_middleware call_next req m in
    let second := cache_middleware call_next req (later dt (snd first)) in
    fst first = Ok {| status_code := 200; body_iterator := [body] |}
    /\ fst second = Ok {| status_code := 200; body_iterator := [body'] |}
    /\ world (snd second) = world (snd first)
    /\ calls (trace (snd second)) = calls (trace (snd first))
    /\ (fst second = fst first <-> body' = body).
Proof.
  intros F PF JC W call_next req m c v0 d d' resp w1 s body' dt
    Hget Hapi Hr Hup Hv0 Ht0 Hcall Hst Hd Hs Hne Hs' Ht' Hrender Hdt body first second.
  assert (Hset : cache_set (now m) (r m) (cache_key_of req) d 3600
                 = Ok (Some {| Redis.db :=
                                 <[cache_key_of req :=
                                     {| Redis.payload := s;
                                        Redis.expires_at := now m + 3600 |}]> (Redis.db c);
                               Redis.connected := true |}))
    by (rewrite Hr; apply cache_set_up; [exact Hup | lia | exact Hs]).
  assert (Hfirst : first
                   = (Ok (StreamingResponse body 200),
                      {| r := Some {| Redis.db :=
                                        <[cache_key_of req :=
                                            {| Redis.payload := s;
                                               Redis.expires_at := now m + 3600 |}]>
                                          (Redis.db c);
                                      Redis.connected := true |};
                         now := now m; world := w1;
                         trace := trace m ++ [CacheMiss (path req)] ++ [CallNext req]
                                          ++ [Cached (path req)] |}))
    by (apply (run_miss_stored call_next req m v0 d resp w1 _
                 Hget Hapi Hv0 Ht0 Hcall Hst Hd Hset)).
  assert (Hsecond : second
                    = (Ok {| status_code := 200; body_iterator := [body'] |},
                       {| r := r (later dt (snd first)); now := now (later dt (snd first));
                          world := world (later dt (snd first));
                          trace := trace (later dt (snd first)) ++ [CacheHit (path req)] |})).
  { unfold second.
    rewrite (run_hit call_next req (later dt (snd first)) d' Hget Hapi).
    - now rewrite Hrender.
    - rewrite Hfirst. cbn [snd later r now].
      apply cache_get_stored; [exact Hdt | exact Hne | exact Hs'].
    - exact Ht'. }
  rewrite Hsecond. cbn [fst snd world trace later].
  rewrite Hfirst. cbn [fst snd world trace StreamingResponse].
  split; [reflexivity|]. split; [reflexivity|]. split; [reflexivity|]. split.
  - unfold calls. rewrite List.filter_app. cbn [List.filter is_call].
    now rewrite app_nil_r.
  - split; intros H; [now injection H as -> | now rewrite H].
Qed.

Lemma second_get_served_from_cache_witness :
  let first := cache_middleware (constant_handler "[1,2]") get_forms (start (keyspace [])) in
  let second := cache_middleware (constant_handler "[1,2]") get_forms (later 60 (snd first)) in
  fst first = Ok {| status_code := 200; body_iterator := ["[1,2]"] |}
  /\ fst second = Ok {| status_code := 200; body_iterator := ["[1,2]"] |}
  /\ world (snd second) = world (snd first)
  /\ calls (trace (snd second)) = calls (trace (snd first))
  /\ (fst second = fst first <-> "[1,2]" = "[1,2]").
Proof.
  exact (second_get_served_from_cache WholeFloat.t _ _ nat (constant_handler "[1,2]")
           get_forms (start (keyspace [])) (keyspace []) VNone
           (VList [VInt 1; VInt 2]) (VList [VInt 1; VInt 2])
           {| status_code := 200; body_iterator := ["[1,2]"] |} 1%nat "[1, 2]" "[1,2]" 60
           eq_refl eq_refl eq_refl eq_refl eq_refl eq_refl eq_refl eq_refl eq_refl
           eq_refl ltac:(discriminate) eq_refl eq_refl eq_refl ltac:(lia)).
Defined.

(** C3 as stated fails.  The handler answers 200 with the body ["{}"]: the
    second of two identical requests is not served from the cache, the
    handler runs again.  When the handler's body is JSON written with a
    space, the second response is served from the cache but is not the
    first byte for byte.  And when the handler's body is ["[Infinity]"],
    which [json.loads] reads, the document is stored and the second request
    is a hit, but no response is served: [JSONResponse] raises. *)
Lemma second_get_not_always_from_cache :
  (let first := cache_middleware (constant_handler "{}") get_forms (start (keyspace [])) in
   let second := cache_middleware (constant_handler "{}") get_forms (later 1 (snd first)) in
   fst first = Ok {| status_code := 200; body_iterator := ["{}"] |}
   /\ world (snd first) = 1%nat
   /\ world (snd second) = 2%nat
   /\ calls (trace (snd second)) = [CallNext get_forms; CallNext get_forms])
  /\ (let first := cache_middleware (constant_handler "[1, 2]") get_forms
                     (start (keyspace [])) in
      let second := cache_middleware (constant_handler "[1, 2]") get_forms
                      (later 1 (snd first)) in
      fst first = Ok {| status_code := 200; body_iterator := ["[1, 2]"] |}
      /\ fst second = Ok {| status_code := 200; body_iterator := ["[1,2]"] |}
      /\ world (snd second) = 1%nat)
  /\ (let first := cache_middleware (constant_handler "[Infinity]") get_forms
                     (start (keyspace [])) in
      let second := cache_middleware (constant_handler "[Infinity]") get_forms
                      (later 1 (snd first)) in
      fst first = Ok {| status_code := 200; body_iterator := ["[Infinity]"] |}
      /\ trace (snd first)
         = [CacheMiss "/api/forms/"; CallNext get_forms; Cached "/api/forms/"]
      /\ fst second = Raise
      /\ trace (snd second)
         = [CacheMiss "/api/forms/"; CallNext get_forms; Cached "/api/forms/";
            CacheHit "/api/forms/"]).
Proof. repeat split; vm_compute; reflexivity. Qed.

(** C4.  A POST, PUT or DELETE under [/api/].  The handler is invoked
    first; when it raises nothing is swept.  When it has returned, the
    store is swept according to the path: the keys matching
    ["GET:/api/forms*"] when the path contains ["/forms"] or
    ["/create_form"]; otherwise the keys matching
    ["GET:/api/submissions*"] when the path contains ["/submissions"];
    otherwise nothing, and that is no error.  With the store healthy no key
    matching the swept pattern can be read afterwards and the other keys
    are untouched; the two patterns match the keys with the prefixes
    ["GET:/api/forms"] and ["GET:/api/submissions"].  The caller gets the
    handler's response as it is. *)
Theorem mutation_sweeps_after_handler :
  forall (F : Type) (PF : PyFloat F) (JC : JsonCodec F) (W : Type)
         (call_next : request -> W -> result response * W)
         (req : request) (m : machine (W := W)),
    is_mutation req = true ->
    is_api req = true ->
    (forall w1, call_next req (world m) = (Raise, w1) ->
        cache_middleware call_next req m
        = (Raise, {| r := r m; now := now m; world := w1;
                     trace := trace m ++ [CallNext req] |}))
    /\ (forall resp w1, call_next req (world m) = (Ok resp, w1) ->
          exists (r' : option Redis.client) (swept : list event),
            cache_middleware call_next req m
            = (Ok resp, {| r := r'; now := now m; world := w1;
                           trace := trace m ++ [CallNext req] ++ swept |})
            /\ match invalidation_pattern (path req) with
               | Some (pattern, family) =>
                   exists deleted,
                     cache_delete_pattern (now m) (r m) pattern = Ok (deleted, r')
                     /\ swept = [Invalidated deleted family (method req)]
                     /\ (forall c, r m = Some c -> Redis.connected c = true ->
                           exists c', r' = Some c'
                             /\ (forall k, Redis.key_matches pattern k = true ->
                                           Redis.get (now m) c' k = Ok None)
                             /\ (forall k, Redis.key_matches pattern k = false ->
                                           Redis.db c' !! k = Redis.db c !! k))
               | None => r' = r m /\ swept = []
               end)
    /\ invalidation_pattern (path req)
       = (if PyStr.contains "/forms" (path req) || PyStr.contains "/create_form" (path req)
          then Some ("GET:/api/forms*", "/api/forms/*")
          else if PyStr.contains "/submissions" (path req)
               then Some ("GET:/api/submissions*", "/api/submissions/*")
               else None)
    /\ (forall k, Redis.key_matches "GET:/api/forms*" k = String.prefix "GET:/api/forms" k)
    /\ (forall k, Redis.key_matches "GET:/api/submissions*" k
                  = String.prefix "GET:/api/submissions" k).
Proof.
  intros F PF JC W call_next req m Hmut Hapi.
  split; [intros w1 Hcall; now apply run_handler_raises|].
  split; [|split; [reflexivity|split]].
  - intros resp w1 Hcall.
    rewrite (run_mutation call_next req m resp w1 Hmut Hapi Hcall).
    destruct (invalidation_pattern (path req)) as [[pattern family]|].
    + destruct (cache_delete_pattern (now m) (r m) pattern) as [[deleted r']|] eqn:Hdel.
      * exists r', [Invalidated deleted family (method req)].
        split; [reflexivity|]. exists deleted. split; [reflexivity|].
        split; [reflexivity|]. intros c Hr Hup. rewrite Hr in Hdel.
        rewrite (cache_delete_pattern_up (now m) c pattern Hup) in Hdel.
        injection Hdel as _ <-.
        destruct (sweep_result (now m) c pattern) as (Hgone & Hkept & _).
        eexists. split; [reflexivity|]. now split.
      * now destruct (cache_ops_never_raise (F := F) (now m) (r m) "" pattern VNone 0)
          as (_ & _ & _ & Hno & _).
    + exists (r m), []. now rewrite app_nil_r.
  - intros k. apply (key_matches_literal_prefix "GET:/api/forms" k). reflexivity.
  - intros k. apply (key_matches_literal_prefix "GET:/api/submissions" k). reflexivity.
Qed.

Lemma mutation_sweeps_after_handler_witness :
  cache_middleware (constant_handler "[3]")
    {| method := "POST"; path := "/api/forms/"; query := "" |}
    (start (keyspace [("GET:/api/forms/", "[1]", 50);
                      ("GET:/api/submissions/?form_id=7", "[2]", 50)]))
  = (Ok {| status_code := 200; body_iterator := ["[3]"] |},
     {| r := Some (keyspace [("GET:/api/submissions/?form_id=7", "[2]", 50)]);
        now := 0; world := 1%nat;
        trace := [CallNext {| method := "POST"; path := "/api/forms/"; query := "" |};
                  Invalidated 1 "/api/forms/*" "POST"] |}).
Proof.
  destruct (proj1 (proj2 (mutation_sweeps_after_handler WholeFloat.t _ _ nat
                            (constant_handler "[3]")
                            {| method := "POST"; path := "/api/forms/"; query := "" |}
                            (start (keyspace [("GET:/api/forms/", "[1]", 50);
                                              ("GET:/api/submissions/?form_id=7", "[2]", 50)]))
                            eq_refl eq_refl))
              {| status_code := 200; body_iterator := ["[3]"] |} 1%nat eq_refl)
    as (r' & swept & Hrun & _).
  rewrite Hrun. vm_compute in Hrun. injection Hrun as <- <-. reflexivity.
Defined.

(** C4 as stated fails on a path of both families.  After a POST to
    [/api/forms/7/submissions] the cached submissions are still served:
    only the forms family was swept. *)
Lemma forms_path_masks_submissions :
  let req := {| method := "POST"; path := "/api/forms/7/submissions"; query := "" |} in
  let m := start (keyspace [("GET:/api/submissions/?form_id=7", "[2]", 50)]) in
  let m' := snd (cache_middleware (constant_handler "[3]") req m) in
  PyStr.contains "/submissions" (path req) = true
  /\ Redis.key_matches "GET:/api/submissions*" "GET:/api/submissions/?form_id=7" = true
  /\ trace m' = [CallNext req; Invalidated 0 "/api/forms/*" "POST"]
  /\ cache_get (now m') (r m') "GET:/api/submissions/?form_id=7"
     = Ok (VList [VInt 2] : doc).
Proof. repeat split; vm_compute; reflexivity. Qed.

(** * Further properties of the code *)

(** ** [validate_form_data] as a whole *)

Section ValidateWhole.

Context {F : Type} `{!PyFloat F}.

Local Abbreviation value := (value F).
Local Abbreviation dict := (list (string * value)).

(** The accumulator of the loop is a prefix of its result. *)
Lemma validate_fields_acc (data schema : dict) (acc : list string) :
  validate_fields data schema acc
  = match validate_fields data schema [] with
    | Ok errs => Ok (acc ++ errs)%list
    | Raise => Raise
    end.
Proof.
  revert acc. induction schema as [|[name cfg] rest IH]; intros acc.
  - simpl. now rewrite app_nil_r.
  - simpl. destruct (validate_field data name cfg) as [es|]; [|reflexivity].
    rewrite (IH (acc ++ es)%list), (IH es).
    destruct (validate_fields data rest []); [|reflexivity].
    now rewrite app_assoc.
Qed.

Lemma validate_fields_cons (data rest : dict) (name : string) (cfg : value) :
  validate_fields data ((name, cfg) :: rest) []
  = match validate_field data name cfg, validate_fields data rest [] with
    | Ok es, Ok errs => Ok (es ++ errs)%list
    | _, _ => Raise
    end.
Proof.
  simpl. destruct (validate_field data name cfg) as [es|]; [|reflexivity].
  now rewrite (validate_fields_acc data rest es).
Qed.

End ValidateWhole.

(** X1.  The result of [validate_form_data] is put together field by
    field.  When no field raises, the messages are those of the fields, in
    the order of the schema, and the flag says whether there is none.  When
    the iteration of some field raises, the call raises and the messages
    found for the other fields are lost. *)
Theorem validate_collects_in_schema_order :
  forall (F : Type) (PF : PyFloat F) (data schema : list (string * value F)),
    match validate_form_data data schema with
    | Ok (valid, errors) =>
        exists per_field : list (list string),
          Forall2 (fun field errs => validate_field data (fst field) (snd field) = Ok errs)
                  schema per_field
          /\ errors = concat per_field
          /\ valid = match errors with [] => true | _ => false end
    | Raise =>
        exists name cfg, In (name, cfg) schema /\ validate_field data name cfg = Raise
    end.
Proof.
  intros F PF data schema. unfold validate_form_data.
  induction schema as [|[name cfg] rest IH].
  - simpl. exists []. repeat split. constructor.
  - rewrite validate_fields_cons.
    destruct (validate_field data name cfg) as [es|] eqn:Hf.
    + destruct (validate_fields data rest []) as [errs|].
      * destruct IH as (per & Hall & -> & _).
        exists (es :: per). split; [constructor; [exact Hf | exact Hall]|].
        split; [reflexivity|]. now destruct (es ++ concat per)%list.
      * destruct IH as (n & c & Hin & Hr). exists n, c. split; [now right | exact Hr].
    + exists name, cfg. split; [now left | exact Hf].
Qed.

(** ** The checks of each type *)

(** X2.  A string or text field with integer bounds: the trimmed length
    is compared with both, each comparison adds its own message, and the
    field passes exactly when the length is within the bounds. *)
Theorem string_length_window :
  forall (F : Type) (PF : PyFloat F) (data cfg : list (string * value F))
         (field_name kind : string) (v : value F) (lo hi : Z),
    kind = "string" \/ kind = "text" ->
    dict_find "type" cfg = Some (VStr kind) ->
    dict_find field_name data = Some v ->
    truthy v = true ->
    dict_find "minLength" cfg = Some (VInt lo) ->
    dict_find "maxLength" cfg = Some (VInt hi) ->
    let n := PyStr.len (PyStr.strip (py_str v)) in
    validate_field data field_name (VDict cfg)
    = Ok (app (if n <? lo
               then [field_name ++ " must be at least " ++ PyStr.of_Z lo ++ " characters"]
               else [])
              (if hi <? n
               then [field_name ++ " must be no more than " ++ PyStr.of_Z hi
                                ++ " characters"]
               else []))
    /\ (validate_field data field_name (VDict cfg) = Ok [] <-> lo <= n <= hi).
Proof.
  intros F PF data cfg field_name kind v lo hi Hkind Hty Hv Ht Hlo Hhi n.
  rewrite (validate_field_present data cfg field_name v Hv Ht).
  unfold dict_get. rewrite Hty. fold n.
  assert (Hrun : check_type field_name cfg (VStr kind) (PyStr.strip (py_str v))
                 = Ok (app (if n <? lo
                            then [field_name ++ " must be at least " ++ PyStr.of_Z lo
                                             ++ " characters"]
                            else [])
                           (if hi <? n
                            then [field_name ++ " must be no more than " ++ PyStr.of_Z hi
                                             ++ " characters"]
                            else []))).
  { unfold check_type, dict_get. rewrite Hlo, Hhi. fold n.
    destruct Hkind as [-> | ->]; reflexivity. }
  rewrite Hrun. split; [reflexivity|].
  destruct (Z.ltb_spec n lo), (Z.ltb_spec hi n); split; intros Hres;
    try discriminate Hres; try reflexivity; lia.
Qed.

Lemma string_length_window_witness :
  validate_field (F := WholeFloat.t) [("name", VStr "  Al ")] "name"
    (VDict [("type", VStr "text"); ("minLength", VInt 3); ("maxLength", VInt 8)])
  = Ok ["name must be at least 3 characters"].
Proof.
  exact (proj1 (string_length_window WholeFloat.t _ [("name", VStr "  Al ")]
                  [("type", VStr "text"); ("minLength", VInt 3); ("maxLength", VInt 8)]
                  "name" "text" (VStr "  Al ") 3 8
                  (or_intror eq_refl) eq_refl eq_refl eq_refl eq_refl eq_refl)).
Defined.

(** X3.  A password field without [minLength] must have six characters
    after trimming; its only message is the one for that bound. *)
Theorem password_default_minimum :
  forall (F : Type) (PF : PyFloat F) (data cfg : list (string * value F))
         (field_name : string) (v : value F),
    dict_find "type" cfg = Some (VStr "password") ->
    dict_find "minLength" cfg = None ->
    dict_find field_name data = Some v ->
    truthy v = true ->
    validate_field data field_name (VDict cfg)
    = Ok (if PyStr.len (PyStr.strip (py_str v)) <? 6
          then [field_name ++ " must be at least 6 characters"]
          else []).
Proof.
  intros F PF data cfg field_name v Hty Hmin Hv Ht.
  rewrite (validate_field_present data cfg field_name v Hv Ht).
  unfold dict_get. rewrite Hty. unfold check_type, dict_get. rewrite Hmin.
  cbn [eq_str String.eqb Ascii.eqb Bool.eqb orb andb int_lt_value].
  now destruct (PyStr.len (PyStr.strip (py_str v)) <? 6).
Qed.

Lemma password_default_minimum_witness :
  validate_field (F := WholeFloat.t) [("pw", VStr " abc12 ")] "pw"
    (VDict [("type", VStr "password")])
  = Ok ["pw must be at least 6 characters"].
Proof.
  exact (password_default_minimum WholeFloat.t _ [("pw", VStr " abc12 ")]
           [("type", VStr "password")] "pw" (VStr " abc12 ")
           eq_refl eq_refl eq_refl eq_refl).
Defined.



Section DropdownFacts.

Context {F : Type} `{!PyFloat F}.

Lemma existsb_eq_str (s : string) (opts : list string) :
  existsb (fun x : value F => eq_str x s) (map VStr opts) = true <-> In s opts.
Proof.
  induction opts as [|o opts IH]; simpl.
  - split; [discriminate | intros []].
  - rewrite orb_true_iff, IH, String.eqb_eq. tauto.
Qed.

Lemma map_py_str_VStr (opts : list string) :
  map py_str (map (VStr (F := F)) opts) = opts.
Proof. induction opts as [|o opts IH]; [reflexivity|]. simpl. now rewrite IH. Qed.

Lemma lstrip_blank (s : string) :
  forallb PyStr.isspace (list_ascii_of_string s) = true -> PyStr.lstrip s = "".
Proof.
  induction s as [|c s IH]; [reflexivity|]. simpl. intros H.
  apply andb_true_iff in H. destruct H as [Hc Hs]. rewrite Hc. now apply IH.
Qed.

Lemma strip_blank (s : string) :
  forallb PyStr.isspace (list_ascii_of_string s) = true -> PyStr.strip s = "".
Proof. intros H. unfold PyStr.strip. now rewrite (lstrip_blank s H). Qed.

End DropdownFacts.

(** X5.  A dropdown field whose options are strings passes exactly when
    the trimmed value is one of the options, letter for letter; otherwise
    its one message lists the options, separated by a comma and a space. *)
Theorem dropdown_accepts_listed_options :
  forall (F : Type) (PF : PyFloat F) (data cfg : list (string * value F))
         (field_name : string) (v : value F) (opts : list string),
    dict_find "type" cfg = Some (VStr "dropdown") ->
    dict_find "options" cfg = Some (VList (map VStr opts)) ->
    dict_find field_name data = Some v ->
    truthy v = true ->
    (validate_field data field_name (VDict cfg) = Ok []
     <-> In (PyStr.strip (py_str v)) opts)
    /\ (~ In (PyStr.strip (py_str v)) opts ->
        validate_field data field_name (VDict cfg)
        = Ok [field_name ++ " must be one of: " ++ PyStr.join ", " opts]).
Proof.
  intros F PF data cfg field_name v opts Hty Hopts Hv Ht.
  rewrite (validate_field_present data cfg field_name v Hv Ht).
  assert (Hg : dict_get cfg "type" VNone = VStr "dropdown")
    by (unfold dict_get; now rewrite Hty).
  assert (Ho : dict_get cfg "options" (VList []) = VList (map VStr opts))
    by (unfold dict_get; now rewrite Hopts).
  rewrite Hg. unfold check_type.
  cbn [eq_str String.eqb Ascii.eqb Bool.eqb orb andb]. rewrite Ho.
  cbn [str_in map_str]. rewrite map_py_str_VStr.
  pose proof (existsb_eq_str (F := F) (PyStr.strip (py_str v)) opts) as Hex.
  destruct (existsb _ (map VStr opts)).
  - split; [split; [intros _; now apply Hex | reflexivity]|].
    intros Hno. destruct Hno. now apply Hex.
  - split; [split; [discriminate|]|reflexivity].
    intros Hin. apply Hex in Hin. discriminate.
Qed.

Lemma dropdown_accepts_listed_options_witness :
  validate_field (F := WholeFloat.t) [("role", VStr "Admin")] "role"
    (VDict [("type", VStr "dropdown"); ("options", VList [VStr "user"; VStr "admin"])])
  = Ok ["role must be one of: user, admin"].
Proof.
  apply (proj2 (dropdown_accepts_listed_options WholeFloat.t _ [("role", VStr "Admin")]
                  [("type", VStr "dropdown");
                   ("options", VList [VStr "user"; VStr "admin"])]
                  "role" (VStr "Admin") ["user"; "admin"]
                  eq_refl eq_refl eq_refl eq_refl)).
  intros [H | [H | []]]; discriminate H.
Defined.

(** X6.  A value made of white space only is not missing.  Even when the
    field is required it passes the required test and is then checked as
    the empty string: an email field refuses it, a field with no type
    accepts it. *)
Theorem blank_value_is_not_missing :
  forall (F : Type) (PF : PyFloat F) (data cfg : list (string * value F))
         (field_name s : string),
    s <> "" ->
    forallb PyStr.isspace (list_ascii_of_string s) = true ->
    dict_find field_name data = Some (VStr s) ->
    validate_field data field_name (VDict cfg)
    = check_type field_name cfg (dict_get cfg "type" VNone) ""
    /\ (dict_find "type" cfg = Some (VStr "email") ->
        validate_field data field_name (VDict cfg)
        = Ok [field_name ++ " must be a valid email address"])
    /\ (dict_find "type" cfg = None ->
        validate_field data field_name (VDict cfg) = Ok []).
Proof.
  intros F PF data cfg field_name s Hne Hblank Hv.
  assert (Ht : truthy (VStr s : value F) = true)
    by (cbn [truthy]; apply String.eqb_neq in Hne; now rewrite Hne).
  rewrite (validate_field_present data cfg field_name (VStr s) Hv Ht).
  cbn [py_str]. rewrite (strip_blank s Hblank).
  split; [reflexivity|]. split; intros Hty; unfold dict_get; now rewrite Hty.
Qed.

Lemma blank_value_is_not_missing_witness :
  validate_field (F := WholeFloat.t) [("name", VStr "   ")] "name"
    (VDict [("required", VBool true)]) = Ok [].
Proof.
  apply (blank_value_is_not_missing WholeFloat.t _ [("name", VStr "   ")]
           [("required", VBool true)] "name" "   ");
    [discriminate | reflexivity | reflexivity | reflexivity].
Defined.

(** X7.  A type that is not one of the seven known names, written exactly,
    switches the checks off: a present value of such a field gets no
    message, whatever the other settings of the field are. *)
Theorem unknown_type_is_not_checked :
  forall (F : Type) (PF : PyFloat F) (data cfg : list (string * value F))
         (field_name : string) (v : value F),
    (forall t, In t known_types -> dict_get cfg "type" VNone <> VStr t) ->
    dict_find field_name data = Some v ->
    truthy v = true ->
    validate_field data field_name (VDict cfg) = Ok [].
Proof.
  intros F PF data cfg field_name v Hty Hv Ht.
  rewrite (validate_field_present data cfg field_name v Hv Ht).
  assert (Hno : forall t, In t known_types -> eq_str (dict_get cfg "type" VNone) t = false).
  { intros t Hin. specialize (Hty t Hin).
    destruct (dict_get cfg "type" VNone); try reflexivity.
    cbn [eq_str]. apply String.eqb_neq. congruence. }
  unfold check_type.
  rewrite !Hno by (unfold known_types; simpl; tauto). reflexivity.
Qed.

Lemma unknown_type_is_not_checked_witness :
  validate_field (F := WholeFloat.t) [("mail", VStr "nobody")] "mail"
    (VDict [("type", VStr "Email"); ("required", VBool true)]) = Ok [].
Proof.
  apply (unknown_type_is_not_checked WholeFloat.t _ [("mail", VStr "nobody")]
           [("type", VStr "Email"); ("required", VBool true)] "mail" (VStr "nobody"));
    [|reflexivity|reflexivity].
  intros t Hin. unfold known_types in Hin. simpl in Hin.
  repeat destruct Hin as [<- | Hin]; try discriminate. destruct Hin.
Defined.

(** ** The duplicate check on email addresses *)

Section EmailDuplicates.

Context {F : Type}.

Lemma lower_char_idempotent (c : ascii) : lower_char (lower_char c) = lower_char c.
Proof. destruct c as [[] [] [] [] [] [] [] []]; reflexivity. Qed.

Lemma py_lower_idempotent (s : string) : py_lower (py_lower s) = py_lower s.
Proof.
  induction s as [|c s IH]; [reflexivity|].
  cbn [py_lower]. now rewrite lower_char_idempotent, IH.
Qed.

Lemma py_lower_empty (s : string) : String.eqb (py_lower s) "" = String.eqb s "".
Proof. now destruct s. Qed.

Lemma any_same_email_spec (email : string) (subs : list (submission F)) :
  any_same_email email subs = true
  <-> exists s e, In s subs /\ sub_user_email s = Some e /\ e <> ""
                  /\ py_lower e = py_lower email.
Proof.
  induction subs as [|s subs IH]; cbn [any_same_email].
  - split; [discriminate | intros (s & e & [] & _)].
  - destruct (same_email email s) eqn:Hs.
    + split; [intros _ | reflexivity]. unfold same_email in Hs.
      destruct (sub_user_email s) as [e|] eqn:He; [|discriminate].
      apply andb_true_iff in Hs. destruct Hs as [Hne Heq].
      exists s, e. split; [now left|]. split; [exact He|]. split.
      * apply negb_true_iff in Hne. now apply String.eqb_neq.
      * now apply String.eqb_eq.
    + rewrite IH. split.
      * intros (s' & e & Hin & Hrest). exists s', e. split; [now right | exact Hrest].
      * intros (s' & e & [<- | Hin] & He & Hne & Heq).
        -- unfold same_email in Hs. rewrite He in Hs.
           apply String.eqb_neq in Hne. apply String.eqb_eq in Heq.
           rewrite Hne, Heq in Hs. discriminate.
        -- exists s', e. now repeat split.
Qed.

Lemma any_same_email_lower (email : string) (subs : list (submission F)) :
  any_same_email (py_lower email) subs = any_same_email email subs.
Proof.
  induction subs as [|s subs IH]; [reflexivity|]. cbn [any_same_email].
  unfold same_email. rewrite py_lower_idempotent. now rewrite IH.
Qed.

End EmailDuplicates.

(** X8.  [check_duplicate_email] answers whether some submission of the
    list has a non-empty address equal to the given one up to the case of
    its letters.  It never looks at [form_id] nor at the form of a
    submission, the empty address is never a duplicate, and writing the
    address in lower case does not change the answer. *)
Theorem duplicate_email_ignores_case_and_form :
  forall (F : Type) (email : string) (form_id other_form : Z)
         (subs : list (submission F)),
    check_duplicate_email email form_id subs
    = check_duplicate_email email other_form subs
    /\ (check_duplicate_email email form_id subs = true
        <-> email <> ""
            /\ exists s e, In s subs /\ sub_user_email s = Some e /\ e <> ""
                           /\ py_lower e = py_lower email)
    /\ check_duplicate_email (py_lower email) form_id subs
       = check_duplicate_email email form_id subs.
Proof.
  intros F email form_id other_form subs. unfold check_duplicate_email.
  split; [reflexivity|]. split.
  - destruct (String.eqb_spec email "") as [->|Hne].
    + split; [discriminate | intros [H _]; congruence].
    + rewrite any_same_email_spec. tauto.
  - rewrite py_lower_empty. destruct (String.eqb email ""); [reflexivity|].
    apply any_same_email_lower.
Qed.

Example duplicate_email_example :
  check_duplicate_email (F := WholeFloat.t) "Ann@Example.org" 1
    [{| sub_id := 7; sub_form_schema_id := 2; sub_form_name := "survey";
        sub_data := []; sub_user_email := Some "ann@EXAMPLE.org";
        sub_validation_status := "valid"; sub_is_duplicate := false |}]
  = true.
Proof. reflexivity. Qed.

(** ** The functions of [cache.py] on a healthy store *)

Section HealthyStore.

Context {F : Type} `{!JsonCodec F}.

Lemma cache_get_other_key (t now ttl : Z) (m : gmap string Redis.entry) (up : bool)
    (key key' s : string) :
  key' <> key ->
  cache_get (F := F) t
    (Some {| Redis.db := <[key := {| Redis.payload := s;
                                     Redis.expires_at := now + ttl |}]> m;
             Redis.connected := up |}) key'
  = cache_get t (Some {| Redis.db := m; Redis.connected := up |}) key'.
Proof.
  intros Hne. unfold cache_get, Redis.get. cbn [Redis.connected Redis.db].
  now rewrite lookup_insert_ne by congruence.
Qed.

Lemma cache_get_expired (now dt ttl : Z) (m : gmap string Redis.entry)
    (key s : string) :
  ttl <= dt ->
  cache_get (F := F) (now + dt)
    (Some {| Redis.db := <[key := {| Redis.payload := s;
                                     Redis.expires_at := now + ttl |}]> m;
             Redis.connected := true |}) key
  = Ok VNone.
Proof.
  intros Hdt. unfold cache_get, Redis.get. cbn [Redis.connected Redis.db].
  rewrite lookup_insert_eq. unfold Redis.live. cbn [Redis.expires_at].
  assert (Hdead : (now + dt <? now + ttl) = false) by (apply Z.ltb_ge; lia).
  now rewrite Hdead.
Qed.

End HealthyStore.

(** X9.  Store, then read.  With the store healthy [cache_set] writes the
    entry whatever the key held before; until [ttl] seconds have passed
    [cache_get] returns the document as it decodes from its serialised
    form; from then on the key is a miss; and no other key is affected. *)
Theorem set_then_get_until_expiry :
  forall (F : Type) (JC : JsonCodec F) (now ttl : Z) (c : Redis.client)
         (key s : string) (v v' : value F),
    Redis.connected c = true ->
    0 < ttl ->
    json_dumps v = Some s ->
    s <> "" ->
    json_loads s = Some v' ->
    exists r1,
      cache_set now (Some c) key v ttl = Ok r1
      /\ (forall dt, 0 <= dt < ttl -> cache_get (now + dt) r1 key = Ok v')
      /\ (forall dt, ttl <= dt -> cache_get (now + dt) r1 key = Ok VNone)
      /\ (forall t key', key' <> key ->
            cache_get (F := F) t r1 key' = cache_get t (Some c) key').
Proof.
  intros F JC now ttl c key s v v' Hup Httl Hs Hne Hs'.
  eexists. split; [exact (cache_set_up now c key s v ttl Hup Httl Hs)|]. split; [|split].
  - intros dt Hdt. now apply cache_get_stored.
  - intros dt Hdt. now apply cache_get_expired.
  - intros t key' Hk. rewrite (cache_get_other_key t now ttl (Redis.db c) true key key' s Hk).
    destruct c as [m up]. cbn [Redis.connected Redis.db] in *. now subst up.
Qed.

Lemma set_then_get_until_expiry_witness :
  exists r1,
    cache_set 100 (Some (keyspace [("k", "[0]", 500)])) "k" (VList [VInt 1] : doc) 60
    = Ok r1
    /\ cache_get 159 r1 "k" = Ok (VList [VInt 1] : doc)
    /\ cache_get 160 r1 "k" = Ok (VNone : doc).
Proof.
  destruct (set_then_get_until_expiry WholeFloat.t ExampleJson.codec 100 60
              (keyspace [("k", "[0]", 500)]) "k" "[1]" (VList [VInt 1]) (VList [VInt 1])
              eq_refl eq_refl eq_refl ltac:(discriminate) eq_refl)
    as (r1 & Hset & Hlive & Hdead & _).
  exists r1. split; [exact Hset|]. split.
  - apply (Hlive 59). lia.
  - apply (Hdead 60). lia.
Defined.

(** X10.  Delete and clear.  With the store healthy, after
    [cache_delete(key)] the key is a miss and every other key reads as
    before; deleting again changes nothing.  After [cache_clear()] every
    key is a miss and a sweep of any pattern finds nothing. *)
Theorem delete_and_clear_remove :
  forall (F : Type) (JC : JsonCodec F) (c : Redis.client) (key : string),
    Redis.connected c = true ->
    (exists r1,
        cache_delete (Some c) key = Ok r1
        /\ (forall t, cache_get (F := F) t r1 key = Ok VNone)
        /\ (forall t key', key' <> key ->
              cache_get (F := F) t r1 key' = cache_get t (Some c) key')
        /\ cache_delete r1 key = Ok r1)
    /\ (exists r2,
           cache_clear (Some c) = Ok r2
           /\ (forall t key', cache_get (F := F) t r2 key' = Ok VNone)
           /\ (forall t pattern, cache_delete_pattern t r2 pattern = Ok (0, r2))).
Proof.
  intros F JC [m up] key Hup. cbn [Redis.connected] in Hup. subst up. split.
  - eexists. split; [reflexivity|]. split; [|split].
    + intros t. unfold cache_get, Redis.get. cbn [Redis.connected Redis.db].
      now rewrite lookup_delete_eq.
    + intros t key' Hne. unfold cache_get, Redis.get. cbn [Redis.connected Redis.db].
      now rewrite lookup_delete_ne by congruence.
    + unfold cache_delete, Redis.delete. cbn [Redis.connected Redis.db].
      now rewrite delete_delete_eq.
  - eexists. split; [reflexivity|]. split.
    + intros t key'. unfold cache_get, Redis.get. cbn [Redis.connected Redis.db].
      now rewrite lookup_empty.
    + intros t pattern. unfold cache_delete_pattern, Redis.scan_iter.
      cbn [Redis.connected Redis.db]. now rewrite map_to_list_empty.
Qed.

Lemma delete_and_clear_remove_witness :
  exists r1,
    cache_delete (Some (keyspace [("a", "[1]", 50); ("b", "[2]", 50)])) "a" = Ok r1
    /\ (forall t, cache_get t r1 "a" = Ok (VNone : doc))
    /\ (forall t key', key' <> "a" ->
          cache_get (F := WholeFloat.t) t r1 key'
          = cache_get t (Some (keyspace [("a", "[1]", 50); ("b", "[2]", 50)])) key')
    /\ cache_delete r1 "a" = Ok r1.
Proof.
  exact (proj1 (delete_and_clear_remove WholeFloat.t ExampleJson.codec
                  (keyspace [("a", "[1]", 50); ("b", "[2]", 50)]) "a" eq_refl)).
Defined.

Section SweepTwice.

Lemma scanned_after_sweep (now : Z) (c : Redis.client) (pattern : string) :
  scanned now {| Redis.db := remove_all (scanned now c pattern) (Redis.db c);
                 Redis.connected := true |} pattern = [].
Proof.
  apply elem_of_nil_inv. intros k Hk.
  apply elem_of_scanned in Hk. destruct Hk as [Hm Hv].
  unfold visible in Hv. cbn [Redis.db] in Hv. rewrite lookup_remove_all in Hv.
  destruct (decide (k ∈ scanned now c pattern)) as [Hin|Hin]; [discriminate|].
  apply Hin. apply elem_of_scanned. split; [exact Hm | exact Hv].
Qed.

End SweepTwice.

(** X11.  Sweeping twice.  With the store healthy, a second
    [cache_delete_pattern] with the same pattern at the same time deletes
    nothing: it returns 0 and leaves the store as the first sweep left it. *)
Theorem sweep_is_idempotent :
  forall (now : Z) (c : Redis.client) (pattern : string) (count : Z)
         (r1 : option Redis.client),
    Redis.connected c = true ->
    cache_delete_pattern now (Some c) pattern = Ok (count, r1) ->
    cache_delete_pattern now r1 pattern = Ok (0, r1).
Proof.
  intros now c pattern count r1 Hup Hrun.
  rewrite (cache_delete_pattern_up now c pattern Hup) in Hrun.
  injection Hrun as _ <-.
  rewrite cache_delete_pattern_up by reflexivity.
  now rewrite scanned_after_sweep.
Qed.

Lemma sweep_is_idempotent_witness :
  cache_delete_pattern 10
    (Some (keyspace [("GET:/api/submissions/?form_id=7", "[3]", 50)]))
    "GET:/api/forms*"
  = Ok (0, Some (keyspace [("GET:/api/submissions/?form_id=7", "[3]", 50)])).
Proof.
  exact (sweep_is_idempotent 10
           (keyspace [("GET:/api/forms/", "[1]", 50);
                      ("GET:/api/submissions/?form_id=7", "[3]", 50)])
           "GET:/api/forms*" 1
           (Some (keyspace [("GET:/api/submissions/?form_id=7", "[3]", 50)]))
           eq_refl eq_refl).
Defined.

(** ** The middleware on the requests it does not cache *)

Section Uncached.

Context {F : Type} `{!PyFloat F} `{!JsonCodec F}.
Context {W : Type} (call_next : request -> W -> result response * W).

Lemma get_is_not_mutation (req : request) : is_get req = true -> is_mutation req = false.
Proof.
  unfold is_mutation, is_get. intros H. apply String.eqb_eq in H. now rewrite H.
Qed.

Lemma calls_app (t u : list event) : calls (t ++ u) = (calls t ++ calls u)%list.
Proof. unfold calls. apply List.filter_app. Qed.

(** A request that is neither a cacheable read nor a write of the cached
    namespace goes to the handler and comes back as it is. *)
Lemma run_passthrough (req : request) (m : machine (W := W)) :
  is_get req && is_api req = false ->
  is_mutation req && is_api req = false ->
  cache_middleware call_next req m
  = (fst (call_next req (world m)),
     {| r := r m; now := now m; world := snd (call_next req (world m));
        trace := trace m ++ [CallNext req] |}).
Proof.
  intros Hg Hm. run. rewrite Hg, Hm. step.
  destruct (call_next req (world m)) as [[resp|] w1]; reflexivity.
Qed.

(** A miss on a cacheable read: the handler is invoked, once. *)
Lemma run_miss_calls (req : request) (m : machine (W := W)) (v0 : value F) :
  is_get req = true -> is_api req = true ->
  cache_get (now m) (r m) (cache_key_of req) = Ok v0 ->
  truthy v0 = false ->
  calls (trace (snd (cache_middleware call_next req m)))
  = (calls (trace m) ++ [CallNext req])%list.
Proof.
  intros Hget Hapi Hv Ht. run. rewrite Hget, Hapi. step. rewrite Hv. step.
  rewrite Ht. step. rewrite (get_is_not_mutation req Hget). step.
  destruct (call_next req (world m)) as [[resp|] w1]; step.
  - destruct (status_code resp =? 200); step.
    + destruct (json_loads_bytes (String.concat "" (body_iterator resp))) as [d|]; step.
      * destruct (cache_set (now m) (r m) (cache_key_of req) d 3600); step;
          rewrite !calls_app; cbn [calls List.filter is_call];
          now rewrite ?app_nil_r.
      * rewrite !calls_app; cbn [calls List.filter is_call]; now rewrite ?app_nil_r.
    + rewrite !calls_app; cbn [calls List.filter is_call]; now rewrite ?app_nil_r.
  - rewrite !calls_app; cbn [calls List.filter is_call]; now rewrite ?app_nil_r.
Qed.

(** A miss whose answer is not 200: nothing is stored. *)
Lemma run_miss_not_ok (req : request) (m : machine (W := W)) (v0 : value F)
    (resp : response) (w1 : W) :
  is_get req = true -> is_api req = true ->
  cache_get (now m) (r m) (cache_key_of req) = Ok v0 ->
  truthy v0 = false ->
  call_next req (world m) = (Ok resp, w1) ->
  status_code resp <> 200 ->
  cache_middleware call_next req m
  = (Ok resp,
     {| r := r m; now := now m; world := w1;
        trace := trace m ++ [CacheMiss (path req); CallNext req] |}).
Proof.
  intros Hget Hapi Hv Ht Hcall Hst. run. rewrite Hget, Hapi. step. rewrite Hv. step.
  rewrite Ht. step. rewrite Hcall. step.
  apply Z.eqb_neq in Hst. rewrite Hst. step.
  rewrite (get_is_not_mutation req Hget). step. now rewrite <- app_assoc.
Qed.

(** A miss whose 200 answer does not decode: nothing is stored, and the
    response returned is the one whose body was read. *)
Lemma run_miss_undecodable (req : request) (m : machine (W := W)) (v0 : value F)
    (resp : response) (w1 : W) :
  is_get req = true -> is_api req = true ->
  cache_get (now m) (r m) (cache_key_of req) = Ok v0 ->
  truthy v0 = false ->
  call_next req (world m) = (Ok resp, w1) ->
  status_code resp = 200 ->
  json_loads_bytes (String.concat "" (body_iterator resp)) = None ->
  cache_middleware call_next req m
  = (Ok {| status_code := 200; body_iterator := [] |},
     {| r := r m; now := now m; world := w1;
        trace := trace m ++ [CacheMiss (path req); CallNext req; CacheError] |}).
Proof.
  intros Hget Hapi Hv Ht Hcall Hst Hd. run. rewrite Hget, Hapi. step. rewrite Hv. step.
  rewrite Ht. step. rewrite Hcall. step. rewrite Hst. cbn [Z.eqb Pos.eqb]. step.
  rewrite Hd. step. now rewrite <- !app_assoc.
Qed.

End Uncached.

(** X12.  Requests outside the cache.  A request whose path is not under
    [/api/], or whose method is neither GET nor POST, PUT or DELETE (a
    PATCH under [/api/], say), reaches the handler and its outcome is
    returned as it is; the store is neither read nor written and nothing
    is invalidated. *)
Theorem uncached_requests_pass_through :
  forall (F : Type) (PF : PyFloat F) (JC : JsonCodec F) (W : Type)
         (call_next : request -> W -> result response * W)
         (req : request) (m : machine (W := W)),
    is_api req = false \/ (is_get req = false /\ is_mutation req = false) ->
    cache_middleware call_next req m
    = (fst (call_next req (world m)),
       {| r := r m; now := now m; world := snd (call_next req (world m));
          trace := trace m ++ [CallNext req] |}).
Proof.
  intros F PF JC W call_next req m H. apply run_passthrough.
  - destruct H as [-> | [-> _]]; [apply andb_false_r | reflexivity].
  - destruct H as [-> | [_ ->]]; [apply andb_false_r | reflexivity].
Qed.

Lemma uncached_requests_pass_through_witness :
  cache_middleware (constant_handler "[3]")
    {| method := "PATCH"; path := "/api/forms/7"; query := "" |}
    (start (keyspace [("GET:/api/forms/7", "[1]", 50)]))
  = (Ok {| status_code := 200; body_iterator := ["[3]"] |},
     {| r := Some (keyspace [("GET:/api/forms/7", "[1]", 50)]); now := 0; world := 1%nat;
        trace := [CallNext {| method := "PATCH"; path := "/api/forms/7"; query := "" |}] |}).
Proof.
  exact (uncached_requests_pass_through WholeFloat.t _ ExampleJson.codec nat
           (constant_handler "[3]")
           {| method := "PATCH"; path := "/api/forms/7"; query := "" |}
           (start (keyspace [("GET:/api/forms/7", "[1]", 50)]))
           (or_intror (conj eq_refl eq_refl))).
Defined.

(** X13.  What a miss does not store.  On a cacheable GET that misses,
    an answer whose status is not 200 is returned as it is and nothing is
    stored; a 200 answer whose body does not decode as JSON is not stored
    either, and what is returned is the handler's response after its body
    iterator was read: the status, and no chunk left to send. *)
Theorem miss_stores_only_decodable_200 :
  forall (F : Type) (PF : PyFloat F) (JC : JsonCodec F) (W : Type)
         (call_next : request -> W -> result response * W)
         (req : request) (m : machine (W := W)) (v0 : value F)
         (resp : response) (w1 : W),
    is_get req = true ->
    is_api req = true ->
    cache_get (now m) (r m) (cache_key_of req) = Ok v0 ->
    truthy v0 = false ->
    call_next req (world m) = (Ok resp, w1) ->
    (status_code resp <> 200 ->
     cache_middleware call_next req m
     = (Ok resp,
        {| r := r m; now := now m; world := w1;
           trace := trace m ++ [CacheMiss (path req); CallNext req] |}))
    /\ (status_code resp = 200 ->
        json_loads_bytes (String.concat "" (body_iterator resp)) = None ->
        cache_middleware call_next req m
        = (Ok {| status_code := 200; body_iterator := [] |},
           {| r := r m; now := now m; world := w1;
              trace := trace m ++ [CacheMiss (path req); CallNext req; CacheError] |})).
Proof.
  intros F PF JC W call_next req m v0 resp w1 Hget Hapi Hv Ht Hcall. split.
  - intros Hst. now apply (run_miss_not_ok call_next req m v0 resp w1).
  - intros Hst Hd. now apply (run_miss_undecodable call_next req m v0 resp w1).
Qed.

Lemma miss_stores_only_decodable_200_witness :
  cache_middleware (constant_handler "<html>") get_forms (start (keyspace []))
  = (Ok {| status_code := 200; body_iterator := [] |},
     {| r := Some (keyspace []); now := 0; world := 1%nat;
        trace := [CacheMiss "/api/forms/"; CallNext get_forms; CacheError] |}).
Proof.
  exact (proj2 (miss_stores_only_decodable_200 WholeFloat.t _ ExampleJson.codec nat
                  (constant_handler "<html>") get_forms (start (keyspace [])) VNone
                  {| status_code := 200; body_iterator := ["<html>"] |} 1%nat
                  eq_refl eq_refl eq_refl eq_refl eq_refl) eq_refl eq_refl).
Defined.

(** ** Invalidation and expiry, seen from the next request *)

Section NextRequest.

Context {F : Type} `{!PyFloat F} `{!JsonCodec F}.

Lemma prefix_append_r (a b c : string) :
  String.prefix a b = true -> String.prefix a (b ++ c) = true.
Proof.
  revert b. induction a as [|x a IH]; intros b; [now destruct (b ++ c)|].
  destruct b as [|y b]; [discriminate|].
  change (String y b ++ c) with (String y (b ++ c)). cbn [String.prefix].
  destruct (ascii_dec x y); [apply IH | discriminate].
Qed.

Lemma prefix_append_l (x a b : string) :
  String.prefix a b = true -> String.prefix (x ++ a) (x ++ b) = true.
Proof.
  intros H. induction x as [|c x IH]; [exact H|].
  change (String.prefix (String c (x ++ a)) (String c (x ++ b)) = true).
  cbn [String.prefix]. destruct (ascii_dec c c); [exact IH | congruence].
Qed.

(** The key of a GET has the prefix ["GET:"] followed by any prefix of its
    path. *)
Lemma cache_key_prefix (req : request) (p : string) :
  is_get req = true ->
  String.prefix p (path req) = true ->
  String.prefix ("GET:" ++ p) (cache_key_of req) = true.
Proof.
  intros Hget Hp. unfold is_get in Hget. apply String.eqb_eq in Hget.
  unfold cache_key_of. rewrite Hget.
  assert (Hbase : String.prefix ("GET:" ++ p) ("GET" ++ ":" ++ path req) = true)
    by (apply (prefix_append_l "GET:" p (path req) Hp)).
  destruct (negb (String.eqb (query req) "")); [|exact Hbase].
  now apply prefix_append_r.
Qed.

(** An entry that cannot be read now cannot be read later. *)
Lemma get_none_later (now dt : Z) (c : Redis.client) (key : string) :
  0 <= dt ->
  Redis.get now c key = Ok None ->
  Redis.get (now + dt) c key = Ok None.
Proof.
  intros Hdt. unfold Redis.get. destruct (Redis.connected c); [|discriminate].
  destruct (Redis.db c !! key) as [e|]; [|reflexivity].
  unfold Redis.live. destruct (Z.ltb_spec now (Redis.expires_at e)); [discriminate|].
  intros _. destruct (Z.ltb_spec (now + dt) (Redis.expires_at e)); [lia | reflexivity].
Qed.

Lemma cache_get_of_none (t : Z) (c : Redis.client) (key : string) :
  Redis.get t c key = Ok None -> cache_get (F := F) t (Some c) key = Ok VNone.
Proof. intros H. unfold cache_get. now rewrite H. Qed.

End NextRequest.

(** X14.  After a write, the family is read afresh.  Once a POST, PUT or
    DELETE under [/api/] whose path names a family has gone through with
    the store healthy, a later GET whose key matches the swept pattern
    finds no cached value and invokes the handler again.  The keys of the
    GETs under [/api/forms] match the forms pattern, those under
    [/api/submissions] the submissions pattern. *)
Theorem write_invalidates_later_reads :
  forall (F : Type) (PF : PyFloat F) (JC : JsonCodec F) (W : Type)
         (call_next : request -> W -> result response * W)
         (req req2 : request) (m : machine (W := W)) (c : Redis.client)
         (resp : response) (w1 : W) (pattern family : string) (dt : Z),
    is_mutation req = true ->
    is_api req = true ->
    invalidation_pattern (path req) = Some (pattern, family) ->
    r m = Some c ->
    Redis.connected c = true ->
    call_next req (world m) = (Ok resp, w1) ->
    is_get req2 = true ->
    is_api req2 = true ->
    Redis.key_matches pattern (cache_key_of req2) = true ->
    0 <= dt ->
    let m1 := later dt (snd (cache_middleware call_next req m)) in
    cache_get (now m1) (r m1) (cache_key_of req2) = Ok VNone
    /\ calls (trace (snd (cache_middleware call_next req2 m1)))
       = (calls (trace m1) ++ [CallNext req2])%list
    /\ (String.prefix "/api/forms" (path req2) = true ->
        Redis.key_matches "GET:/api/forms*" (cache_key_of req2) = true)
    /\ (String.prefix "/api/submissions" (path req2) = true ->
        Redis.key_matches "GET:/api/submissions*" (cache_key_of req2) = true).
Proof.
  intros F PF JC W call_next req req2 m c resp w1 pattern family dt
    Hmut Hapi Hpat Hr Hup Hcall Hget2 Hapi2 Hkey Hdt m1.
  assert (Hmiss : cache_get (now m1) (r m1) (cache_key_of req2) = Ok VNone).
  { subst m1. rewrite (run_mutation call_next req m resp w1 Hmut Hapi Hcall), Hpat, Hr.
    rewrite (cache_delete_pattern_up (now m) c pattern Hup).
    cbn [snd later r now]. apply cache_get_of_none. apply get_none_later; [exact Hdt|].
    now apply (sweep_result (now m) c pattern). }
  split; [exact Hmiss|]. split.
  - now apply (run_miss_calls call_next req2 m1 VNone).
  - split; intros Hp.
    + etransitivity;
        [apply (key_matches_literal_prefix "GET:/api/forms" (cache_key_of req2) eq_refl)|].
      now apply (cache_key_prefix req2 "/api/forms").
    + etransitivity;
        [apply (key_matches_literal_prefix "GET:/api/submissions" (cache_key_of req2)
                  eq_refl)|].
      now apply (cache_key_prefix req2 "/api/submissions").
Qed.

Lemma write_invalidates_later_reads_witness :
  let req := {| method := "DELETE"; path := "/api/forms/7"; query := "" |} in
  let m1 := later 5 (snd (cache_middleware (constant_handler "[3]") req
                            (start (keyspace [("GET:/api/forms/", "[1]", 50)])))) in
  cache_get (now m1) (r m1) (cache_key_of get_forms) = Ok (VNone : doc)
  /\ calls (trace (snd (cache_middleware (constant_handler "[3]") get_forms m1)))
     = (calls (trace m1) ++ [CallNext get_forms])%list.
Proof.
  intros req m1.
  destruct (write_invalidates_later_reads WholeFloat.t _ ExampleJson.codec nat
              (constant_handler "[3]") req get_forms
              (start (keyspace [("GET:/api/forms/", "[1]", 50)]))
              (keyspace [("GET:/api/forms/", "[1]", 50)])
              {| status_code := 200; body_iterator := ["[3]"] |} 1%nat
              "GET:/api/forms*" "/api/forms/*" 5
              eq_refl eq_refl eq_refl eq_refl eq_refl eq_refl eq_refl eq_refl eq_refl
              ltac:(lia))
    as (Hmiss & Hcalls & _).
  split; [exact Hmiss | exact Hcalls].
Defined.

(** X15.  The entry lasts 3600 seconds.  After a miss that stored the
    handler's answer, the same GET 3600 seconds later or more finds the
    entry expired and invokes the handler again. *)
Theorem stored_answer_expires_after_an_hour :
  forall (F : Type) (PF : PyFloat F) (JC : JsonCodec F) (W : Type)
         (call_next : request -> W -> result response * W)
         (req : request) (m : machine (W := W)) (c : Redis.client)
         (v0 d : value F) (resp : response) (w1 : W) (s : string) (dt : Z),
    is_get req = true ->
    is_api req = true ->
    r m = Some c ->
    Redis.connected c = true ->
    cache_get (now m) (r m) (cache_key_of req) = Ok v0 ->
    truthy v0 = false ->
    call_next req (world m) = (Ok resp, w1) ->
    status_code resp = 200 ->
    json_loads_bytes (String.concat "" (body_iterator resp)) = Some d ->
    json_dumps d = Some s ->
    3600 <= dt ->
    let m1 := later dt (snd (cache_middleware call_next req m)) in
    cache_get (now m1) (r m1) (cache_key_of req) = Ok VNone
    /\ calls (trace (snd (cache_middleware call_next req m1)))
       = (calls (trace m) ++ [CallNext req; CallNext req])%list.
Proof.
  intros F PF JC W call_next req m c v0 d resp w1 s dt
    Hget Hapi Hr Hup Hv0 Ht0 Hcall Hst Hd Hs Hdt m1.
  assert (Hset : cache_set (now m) (r m) (cache_key_of req) d 3600
                 = Ok (Some {| Redis.db :=
                                 <[cache_key_of req :=
                                     {| Redis.payload := s;
                                        Redis.expires_at := now m + 3600 |}]> (Redis.db c);
                               Redis.connected := true |}))
    by (rewrite Hr; apply cache_set_up; [exact Hup | lia | exact Hs]).
  pose proof (run_miss_stored call_next req m v0 d resp w1 _
                Hget Hapi Hv0 Ht0 Hcall Hst Hd Hset) as Hfirst.
  assert (Hmiss : cache_get (now m1) (r m1) (cache_key_of req) = Ok VNone).
  { subst m1. rewrite Hfirst. cbn [snd later r now]. now apply cache_get_expired. }
  split; [exact Hmiss|].
  rewrite (run_miss_calls call_next req m1 VNone Hget Hapi Hmiss eq_refl).
  subst m1. rewrite Hfirst. cbn [snd later trace].
  rewrite !calls_app. cbn [calls List.filter is_call].
  now rewrite app_nil_r, <- app_assoc.
Qed.

Lemma stored_answer_expires_after_an_hour_witness :
  let m1 := later 3600 (snd (cache_middleware (constant_handler "[1,2]") get_forms
                               (start (keyspace [])))) in
  cache_get (now m1) (r m1) (cache_key_of get_forms) = Ok (VNone : doc)
  /\ calls (trace (snd (cache_middleware (constant_handler "[1,2]") get_forms m1)))
     = [CallNext get_forms; CallNext get_forms].
Proof.
  exact (stored_answer_expires_after_an_hour WholeFloat.t _ ExampleJson.codec nat
           (constant_handler "[1,2]") get_forms (start (keyspace [])) (keyspace [])
           VNone (VList [VInt 1; VInt 2])
           {| status_code := 200; body_iterator := ["[1,2]"] |} 1%nat "[1, 2]" 3600
           eq_refl eq_refl eq_refl eq_refl eq_refl eq_refl eq_refl eq_refl eq_refl
           eq_refl ltac:(lia)).
Defined.

Section Keys.

Lemma append_inj_l (a b c : string) : a ++ b = a ++ c -> b = c.
Proof.
  induction a as [|x a IH]; [trivial|].
  change (String x (a ++ b) = String x (a ++ c) -> b = c).
  intros H. injection H as H. now apply IH.
Qed.

Lemma append_not_self (a b : string) (x : ascii) : a <> a ++ String x b.
Proof.
  induction a as [|y a IH]; [discriminate|].
  change (String y a <> String y (a ++ String x b)).
  intros H. injection H as H. now apply IH in H.
Qed.

End Keys.

(** X16.  The key tells the queries apart.  Two requests with the same
    method and path have the same cache key exactly when they have the
    same query string, letter for letter: the same parameters in another
    order are another key. *)
Theorem cache_key_separates_queries :
  forall (req1 req2 : request),
    method req1 = method req2 ->
    path req1 = path req2 ->
    (cache_key_of req1 = cache_key_of req2 <-> query req1 = query req2).
Proof.
  intros [m1 p1 q1] [m2 p2 q2]. cbn [method path query]. intros <- <-.
  unfold cache_key_of. cbn [method path query]. split; [|now intros ->].
  destruct q1 as [|x1 q1], q2 as [|x2 q2]; cbn [String.eqb negb].
  - reflexivity.
  - intros H. exfalso. revert H.
    change ((m1 ++ ":" ++ p1) ++ "?" ++ String x2 q2)
      with ((m1 ++ ":" ++ p1) ++ String "?" (String x2 q2)).
    apply append_not_self.
  - intros H. exfalso. symmetry in H. revert H.
    change ((m1 ++ ":" ++ p1) ++ "?" ++ String x1 q1)
      with ((m1 ++ ":" ++ p1) ++ String "?" (String x1 q1)).
    apply append_not_self.
  - intros H. apply append_inj_l in H.
    change (String "?" (String x1 q1) = String "?" (String x2 q2)) in H.
    now injection H as -> ->.
Qed.

Lemma cache_key_separates_queries_witness :
  cache_key_of {| method := "GET"; path := "/api/submissions/"; query := "form_id=1&page=2" |}
  = cache_key_of {| method := "GET"; path := "/api/submissions/"; query := "page=2&form_id=1" |}
  <-> "form_id=1&page=2" = "page=2&form_id=1".
Proof.
  exact (cache_key_separates_queries
           {| method := "GET"; path := "/api/submissions/"; query := "form_id=1&page=2" |}
           {| method := "GET"; path := "/api/submissions/"; query := "page=2&form_id=1" |}
           eq_refl eq_refl).
Defined.

(** ** The pages of [list_submissions] *)

Section Pages.

Context {A : Type}.

Import Pagination.

(** The number of pages is the quotient rounded up. *)
Lemma total_pages_bounds (total limit : Z) :
  0 <= total -> 1 <= limit ->
  let q := (total + limit - 1) / limit in
  total <= q * limit /\ (q - 1) * limit < total + (if total =? 0 then 1 else 0) /\ 0 <= q.
Proof.
  intros Ht Hl q.
  pose proof (Z.div_mod (total + limit - 1) limit ltac:(lia)) as Hdm.
  pose proof (Z.mod_pos_bound (total + limit - 1) limit ltac:(lia)) as Hmod.
  fold q in Hdm. destruct (Z.eqb_spec total 0); split; try split; nia.
Qed.

Lemma submissions_of_page (rows : list A) (p : nat) (limit : Z) :
  (1 <= p)%nat -> 1 <= limit ->
  submissions (paginate rows (Z.of_nat p) limit)
  = take (Z.to_nat limit) (drop ((p - 1) * Z.to_nat limit) rows).
Proof.
  intros Hp Hl. cbn [paginate submissions]. do 2 f_equal.
  rewrite Z2Nat.inj_mul by lia. f_equal. lia.
Qed.

(** The first [n] pages laid end to end are the first [n * limit] rows. *)
Lemma first_pages (rows : list A) (n : nat) (limit : Z) :
  1 <= limit ->
  concat (map (fun p => submissions (paginate rows (Z.of_nat p) limit)) (seq 1 n))
  = take (n * Z.to_nat limit) rows.
Proof.
  intros Hl. induction n as [|n IH]; [reflexivity|].
  rewrite seq_S, map_app, concat_app, IH. cbn [map concat].
  rewrite app_nil_r, submissions_of_page by lia.
  replace (1 + n - 1)%nat with n by lia.
  rewrite take_take_drop. f_equal. lia.
Qed.

End Pages.

(** X17.  The pages of [list_submissions] cut the rows of the query into
    consecutive pieces: pages 1 to [total_pages], laid end to end, are the
    rows, each once and in order, and every page after the last is empty. *)
Theorem pages_partition_the_rows :
  forall (A : Type) (rows : list A) (limit : Z),
    1 <= limit ->
    let n := Pagination.total_pages (Pagination.paginate rows 1 limit) in
    concat (map (fun p => Pagination.submissions
                            (Pagination.paginate rows (Z.of_nat p) limit))
                (seq 1 (Z.to_nat n)))
    = rows
    /\ (forall page, n < page ->
          Pagination.submissions (Pagination.paginate rows page limit) = []).
Proof.
  intros A rows limit Hl n.
  destruct (total_pages_bounds (Z.of_nat (length rows)) limit ltac:(lia) Hl)
    as (Hcover & _ & Hq).
  cbn [Pagination.paginate Pagination.total_pages] in n. fold n in Hcover, Hq. split.
  - rewrite first_pages by exact Hl. apply take_ge. nia.
  - intros page Hpage. cbn [Pagination.paginate Pagination.submissions].
    rewrite drop_ge; [apply take_nil|]. nia.
Qed.

Lemma pages_partition_the_rows_witness :
  concat (map (fun p => Pagination.submissions
                          (Pagination.paginate [1; 2; 3; 4; 5; 6; 7] (Z.of_nat p) 5))
              (seq 1 (Z.to_nat 2)))
  = [1; 2; 3; 4; 5; 6; 7].
Proof.
  exact (proj1 (pages_partition_the_rows Z [1; 2; 3; 4; 5; 6; 7] 5 ltac:(lia))).
Defined.

(** X18.  The counters of a page.  For a page number and a limit of at
    least 1, [has_next] holds exactly when rows remain after this page,
    that is, when the next page is not empty; [has_prev] holds exactly
    after the first page; and the page holds the rows from [skip] on, at
    most [limit] of them. *)
Theorem page_counters_are_exact :
  forall (A : Type) (rows : list A) (page limit : Z),
    1 <= page ->
    1 <= limit ->
    let p := Pagination.paginate rows page limit in
    (Pagination.has_next p = true <-> page * limit < Pagination.total p)
    /\ (Pagination.has_next p = true
        <-> Pagination.submissions (Pagination.paginate rows (page + 1) limit) <> [])
    /\ (Pagination.has_prev p = true <-> 1 < page)
    /\ Z.of_nat (length (Pagination.submissions p))
       = Z.min limit (Z.max 0 (Pagination.total p - (page - 1) * limit)).
Proof.
  intros A rows page limit Hp Hl p. subst p.
  cbn [Pagination.paginate Pagination.has_next Pagination.has_prev Pagination.total
       Pagination.submissions].
  destruct (total_pages_bounds (Z.of_nat (length rows)) limit ltac:(lia) Hl)
    as (Hcover & Hlast & Hq).
  set (q := (Z.of_nat (length rows) + limit - 1) / limit) in *.
  assert (Hnext : (page <? q) = true <-> page * limit < Z.of_nat (length rows)).
  { rewrite Z.ltb_lt. destruct (Z.eqb_spec (Z.of_nat (length rows)) 0); split; nia. }
  split; [exact Hnext|]. split; [|split].
  - rewrite Hnext. replace (page + 1 - 1) with page by lia. split.
    + intros Hlt Hnil. apply (f_equal (@length A)) in Hnil.
      rewrite length_take, length_drop in Hnil. cbn [length] in Hnil. nia.
    + intros Hne. destruct (Z.lt_ge_cases (page * limit) (Z.of_nat (length rows)))
        as [Hlt|Hge]; [exact Hlt|].
      destruct Hne. rewrite drop_ge; [apply take_nil|]. nia.
  - apply Z.ltb_lt.
  - rewrite length_take, length_drop. nia.
Qed.

Lemma page_counters_are_exact_witness :
  let p := Pagination.paginate [1; 2; 3; 4; 5; 6; 7] 1 5 in
  Pagination.has_next p = true <-> 1 * 5 < Pagination.total p.
Proof.
  exact (proj1 (page_counters_are_exact Z [1; 2; 3; 4; 5; 6; 7] 1 5
                  ltac:(lia) ltac:(lia))).
Defined.
